(** * Supertask: cron job seeding on top of APScheduler

    A shallow embedding of [src/models.py] (the [CronJob] model and its
    crontab validator) and of [src/main.py] (the [Supertask] wrapper:
    [configure], [seed_jobs], [run_supertask]).

    Conventions.
    - A Python [str] is a [string]; a character is a code point below 256,
      so that [\d] is exactly [0-9] and the whitespace of [str.split] is
      the set listed in [is_space].
    - A Python [dict] used as a map is a [gmap].
    - Code that raises returns [Raise e]; stateful code lives in the monad
      [M], which threads the state and keeps it when an exception is
      raised.
    - What the libraries decide (whether a job store constructor takes an
      address, whether the cron trigger takes five fields, what starting
      the scheduler, the file observer and the HTTP service does) is a
      parameter of the code that calls them. *)

From Stdlib Require Import Ascii String ZArith Lia.
From stdpp Require Import base option list strings gmap pretty.

Local Open Scope string_scope.
Local Open Scope list_scope.

(** ** Strings *)

Module Str.

(** [str.startswith] *)
Fixpoint startswith (s p : string) : bool :=
  match p, s with
  | "", _ => true
  | String a p', String b s' => if decide (a = b) then startswith s' p' else false
  | String _ _, "" => false
  end.

(** Whitespace as [str.split] and [str.isspace] see it, for code points
    below 256: TAB LF VT FF CR, FS GS RS US, SPACE, NEL and NBSP. *)
Definition is_space (c : ascii) : bool :=
  match c with
  | "009" | "010" | "011" | "012" | "013"
  | "028" | "029" | "030" | "031" | " " | "133" | "160" => true
  | _ => false
  end%char.

(** [str.split()] without arguments: the maximal runs of non-whitespace
    characters, in order.  [cur] is the field being read, reversed. *)
Fixpoint split_go (cur : option string) (s : string) : list string :=
  match s with
  | "" => option_list (String.rev <$> cur)
  | String a s' =>
      if is_space a
      then option_list (String.rev <$> cur) ++ split_go None s'
      else split_go (Some (String a (default "" cur))) s'
  end.

Definition split (s : string) : list string := split_go None s.

End Str.

(** ** Regular expressions, as [re.match] runs them *)

Module Re.

(** The constructs the crontab pattern uses. *)
Inductive regex : Type :=
| Lit (c : ascii)                   (* a literal character *)
| Digit                             (* \d *)
| Cat (r1 r2 : regex)               (* r1 r2 *)
| Alt (r1 r2 : regex)               (* r1|r2 *)
| Plus (r : regex)                  (* r+ *)
| Opt (r : regex)                   (* r? *)
| Repeat (lo hi : nat) (r : regex). (* r{lo,hi} *)

Definition is_digit (c : ascii) : bool :=
  match c with
  | "0" | "1" | "2" | "3" | "4" | "5" | "6" | "7" | "8" | "9" => true
  | _ => false
  end%char.

(** A backtracking matcher.  [ends r s] lists, in the order the engine
    tries them (greedy first), the remainders [s'] such that [r] matches
    the prefix of [s] before [s']. *)

(** [r+]: one more iteration of [f], then further ones before giving up.
    An iteration that consumes nothing cannot be repeated for ever: the
    fuel bounds the iterations by the length of the input. *)
Fixpoint plus_iter (fuel : nat) (f : string → list string) (s : string)
  : list string :=
  match fuel with
  | 0 => []
  | S n => s' ← f s; plus_iter n f s' ++ [s']
  end.

(** [r{lo,hi}]: up to [hi] iterations, at least [lo] of them. *)
Fixpoint rep (f : string → list string) (lo hi : nat) (s : string)
  : list string :=
  match hi with
  | 0 => if lo is 0 then [s] else []
  | S hi' => (s' ← f s; rep f (pred lo) hi' s')
             ++ (if lo is 0 then [s] else [])
  end.

Fixpoint ends (r : regex) (s : string) : list string :=
  match r with
  | Lit c =>
      match s with
      | String a s' => if decide (a = c) then [s'] else []
      | "" => []
      end
  | Digit =>
      match s with
      | String a s' => if is_digit a then [s'] else []
      | "" => []
      end
  | Cat r1 r2 => s' ← ends r1 s; ends r2 s'
  | Alt r1 r2 => ends r1 s ++ ends r2 s
  | Plus r' => plus_iter (S (String.length s)) (ends r') s
  | Opt r' => ends r' s ++ [s]
  | Repeat lo hi r' => rep (ends r') lo hi s
  end.

(** [re.match(r, s)]: the match anchored at the start of [s] that the
    engine finds first, given by what is left of [s] after it; [None]
    when no prefix of [s] matches. *)
Definition re_match (r : regex) (s : string) : option string :=
  head (ends r s).

(** The words of a regular expression. *)
Inductive lang : regex → string → Prop :=
| lang_lit c : lang (Lit c) (String c "")
| lang_digit c : is_digit c = true → lang Digit (String c "")
| lang_cat r1 r2 p1 p2 :
    lang r1 p1 → lang r2 p2 → lang (Cat r1 r2) (p1 +:+ p2)
| lang_alt_l r1 r2 p : lang r1 p → lang (Alt r1 r2) p
| lang_alt_r r1 r2 p : lang r2 p → lang (Alt r1 r2) p
| lang_plus_one r p : lang r p → lang (Plus r) p
| lang_plus_more r p1 p2 :
    lang r p1 → lang (Plus r) p2 → lang (Plus r) (p1 +:+ p2)
| lang_opt_none r : lang (Opt r) ""
| lang_opt_some r p : lang r p → lang (Opt r) p
| lang_rep_stop hi r : lang (Repeat 0 hi r) ""
| lang_rep_step lo hi r p1 p2 :
    lang r p1 → lang (Repeat (pred lo) hi r) p2 →
    lang (Repeat lo (S hi) r) (p1 +:+ p2).

End Re.

(** ** Exceptions and results *)

Inductive exn : Type :=
| ValueError (msg : string)
| RuntimeError (msg : string)
| AttributeError (msg : string)
| OperationalError (msg : string).

Inductive result (A : Type) : Type :=
| Ok (a : A)
| Raise (e : exn).
Arguments Ok {A} a.
Arguments Raise {A} e.

(** ** [src/models.py] *)

Module JobStoreLocation.

(** Manage the triple of database address, schema name, and table name. *)
Record t : Type := mk {
  address : string;
  schema : string;
  table : string;
}.

(** [JobStoreLocation(address, schema="ext", table="jobs")]; [None] stands
    for an argument left out. *)
Definition make (address : string) (schema table : option string) : t :=
  mk address (default "ext" schema) (default "jobs" table).

End JobStoreLocation.

Module CronJob.

Definition datetime : Type := Z.

Record t : Type := mk {
  id : Z;
  crontab : string;
  job : string;
  enabled : bool;
  last_run : option datetime;
  last_status : option string;
}.

(** The pattern of [validate_crontab]: five to seven repetitions of a
    field followed by an optional space, a field being one of, in this
    order: a comma list [(\d+,)+\d+], a pair [\d+(\/|-)\d+], a number
    [\d+], a star. *)
Definition field : Re.regex :=
  let digits := Re.Plus Re.Digit in
  Re.Alt (Re.Cat (Re.Plus (Re.Cat digits (Re.Lit ","))) digits)
    (Re.Alt (Re.Cat digits (Re.Cat (Re.Alt (Re.Lit "/") (Re.Lit "-")) digits))
       (Re.Alt digits (Re.Lit "*"))).

Definition pattern : Re.regex :=
  Re.Repeat 5 7 (Re.Cat field (Re.Opt (Re.Lit " "))).

Definition validate_crontab (v : string) : result string :=
  match Re.re_match pattern v with
  | None => Raise (ValueError "Invalid crontab syntax")
  | Some _ => Ok v
  end.

End CronJob.


(** ** APScheduler objects, as far as [src/main.py] builds them *)

Module CronTrigger.
Record t : Type := mk {
  minute : string;
  hour : string;
  day : string;
  month : string;
  day_of_week : string;
  timezone : string;
}.
End CronTrigger.

Module Job.
Record t : Type := mk {
  id : string;
  func : string;
  trigger : CronTrigger.t;
  args : list string;
  executor : string;
  coalesce : bool;
  max_instances : Z;
}.
End Job.

Inductive Executor : Type :=
| ThreadPoolExecutor (max_workers : Z)
| ProcessPoolExecutor (max_workers : Z).

Module JobStore.
Inductive t : Type :=
| MemoryJobStore (jobs : gmap string Job.t)
| SQLAlchemyJobStore (url : string) (echo : bool)
| CrateDBSQLAlchemyJobStore (url : string) (echo : bool).
End JobStore.

(** The [job_defaults] dictionary: its two keys. *)
Module JobDefaults.
Record t : Type := mk {
  coalesce : bool;
  max_instances : Z;
}.
End JobDefaults.

(** A [BackgroundScheduler] that has not been started: [add_job] queues
    the job with the alias of its job store and [replace_existing]. *)
Module BackgroundScheduler.
Record t : Type := mk {
  executors : gmap string Executor;
  job_defaults : JobDefaults.t;
  jobstores : gmap string JobStore.t;
  timezone : string;
  pending_jobs : list (Job.t * string * bool);
}.

(** [get_jobs()] on a scheduler that is not running: the queued jobs. *)
Definition get_jobs (s : t) : list Job.t := (λ p, p.1.1) <$> pending_jobs s.

(** [self._pending_jobs.append(entry)] *)
Definition append_pending (s : t) (entry : Job.t * string * bool) : t :=
  mk (executors s) (job_defaults s) (jobstores s) (timezone s)
     (pending_jobs s ++ [entry]).
End BackgroundScheduler.

(** ** What lies outside the process *)

Inductive StoreCall : Type :=
| RemoveAllJobs.

Module World.
Record t : Type := mk {
  (** the jobs table behind a durable store address; [None] when the
      table is missing or the backend cannot be reached, so that a
      statement on it fails *)
  jobs_table : option (gmap string Job.t);
  (** the calls made on the job store, oldest first *)
  store_log : list StoreCall;
  (** the job definitions [get_db()] returns (module [database], which
      reads them from [cronjobs.json]) *)
  cronjobs : list CronJob.t;
}.
End World.

(** ** [src/main.py] *)

Module Supertask.

Record t : Type := mk {
  job_store_address : string;
  pre_delete_jobs : bool;
  scheduler : option BackgroundScheduler.t;
}.

(** The state a method runs in: the object [self] and the world. *)
Record State : Type := mkState {
  self : t;
  world : World.t;
}.

Definition M (A : Type) : Type := State → result A * State.

Definition raise {A} (e : exn) : M A := λ st, (Raise e, st).

#[global] Instance M_ret : MRet M := λ A a st, (Ok a, st).
#[global] Instance M_bind : MBind M := λ A B k m st,
  match m st with
  | (Ok a, st') => k a st'
  | (Raise e, st') => (Raise e, st')
  end.

Definition lift {A} (r : result A) : M A := λ st, (r, st).
Definition get_self : M t := λ st, (Ok (self st), st).
Definition get_world : M World.t := λ st, (Ok (world st), st).
Definition put_world (w : World.t) : M unit :=
  λ st, (Ok (), mkState (self st) w).
Definition set_scheduler (s : BackgroundScheduler.t) : M unit :=
  λ st, (Ok (), mkState (mk (job_store_address (self st))
                            (pre_delete_jobs (self st)) (Some s))
                        (world st)).

(** [try: m except: pass] *)
Definition try_except_pass {A} (m : M A) (otherwise : A) : M A :=
  λ st, match m st with
        | (Ok a, st') => (Ok a, st')
        | (Raise _, st') => (Ok otherwise, st')
        end.

(** [for x in l: body(x)] *)
Fixpoint for_each {A} (l : list A) (body : A → M unit) : M unit :=
  match l with
  | [] => mret ()
  | x :: l' => body x;; for_each l' body
  end.

(** Modelled from the spec: [job_store.remove_all_jobs()], which belongs to
    APScheduler's job stores and to the repository's
    [CrateDBSQLAlchemyJobStore] (module [jobstore_sqlalchemy], not part of
    the sources at hand): "the store clears all jobs".  The memory store
    empties its own dictionary.  A durable store deletes the rows of the
    jobs table, and raises when the table cannot be reached.  Every call
    is logged. *)
Definition remove_all_jobs (job_store : JobStore.t) : M JobStore.t :=
  w ← get_world;
  let log := World.store_log w ++ [RemoveAllJobs] in
  match job_store with
  | JobStore.MemoryJobStore _ =>
      put_world (World.mk (World.jobs_table w) log (World.cronjobs w));;
      mret (JobStore.MemoryJobStore ∅)
  | _ =>
      match World.jobs_table w with
      | None =>
          put_world (World.mk None log (World.cronjobs w));;
          raise (OperationalError "jobs table unavailable")
      | Some _ =>
          put_world (World.mk (Some ∅) log (World.cronjobs w));;
          mret job_store
      end
  end.

(** [minute, hour, day, month, day_of_week = l] *)
Definition unpack5 (l : list string)
  : result (string * string * string * string * string) :=
  match l with
  | [a; b; c; d; e] => Ok (a, b, c, d, e)
  | _ =>
      if decide (length l < 5)
      then Raise (ValueError ("not enough values to unpack (expected 5, got "
                              +:+ pretty (length l) +:+ ")"))
      else Raise (ValueError "too many values to unpack (expected 5)")
  end.

(** The job [add_job] builds for the ['cron'] trigger: the trigger takes
    the scheduler's timezone, and options left out come from
    [job_defaults]. *)
Definition make_job (timezone : string) (defaults : JobDefaults.t)
  (func : string) (minute hour day month day_of_week : string)
  (id : string) (args : list string) (max_instances : option Z) : Job.t :=
  Job.mk id func
    (CronTrigger.mk minute hour day month day_of_week timezone)
    args "default"
    (JobDefaults.coalesce defaults)
    (default (JobDefaults.max_instances defaults) max_instances).

Section Library.

(** The constructors of the durable job stores,
    [SQLAlchemyJobStore(url=.., engine_options=..)] and
    [CrateDBSQLAlchemyJobStore(url=.., engine_options=..)], create an
    SQLAlchemy engine from the address, which parses it and can raise.
    That belongs to the libraries and is taken as given: [Ok ()] when the
    constructor returns the store, [Raise e] when it raises [e]. *)
Variable job_store_init : JobStore.t → result unit.

(** APScheduler's [CronTrigger] constructor checks the five field
    expressions; the check belongs to the library and is taken as
    given: [Ok ()] when it builds the trigger, [Raise e] when it
    raises [e]. *)
Variable cron_trigger_check : CronTrigger.t → result unit.

(** [self.scheduler.start()], and what the file observer and the HTTP
    service do when they are started: library code, taken as given. *)
Variable scheduler_start : M unit.
Variable observer_start : M unit.
Variable http_service_start : M unit.

Definition configure : M unit :=
  self ← get_self;
  (* Initialize a job store. *)
  job_store ←
    (if Str.startswith (job_store_address self) "memory://" then
       mret (JobStore.MemoryJobStore ∅)
     else if Str.startswith (job_store_address self) "postgresql://" then
       let job_store :=
         JobStore.SQLAlchemyJobStore (job_store_address self) true in
       lift (job_store_init job_store);;
       mret job_store
     else if Str.startswith (job_store_address self) "crate://" then
       let job_store :=
         JobStore.CrateDBSQLAlchemyJobStore (job_store_address self) true in
       lift (job_store_init job_store);;
       mret job_store
     else
       raise (RuntimeError ("Initializing job store failed. Unknown address: "
                            +:+ job_store_address self)));
  job_store ←
    (if pre_delete_jobs self
     then try_except_pass (remove_all_jobs job_store) job_store
     else mret job_store);
  let job_defaults := JobDefaults.mk false 1 in
  let executors : gmap string Executor :=
    <["default" := ThreadPoolExecutor 20]>
      (<["processpool" := ProcessPoolExecutor 5]> ∅) in
  let job_stores : gmap string JobStore.t := <["default" := job_store]> ∅ in
  (* Create a timezone object for Vienna *)
  let timezone := "Europe/Vienna" in
  set_scheduler
    (BackgroundScheduler.mk executors job_defaults job_stores timezone []).

(** [Supertask(job_store_address, pre_delete_jobs=False)]; [None] stands
    for an argument left out. *)
Definition init (job_store_address : string) (pre_delete_jobs : option bool)
  (w : World.t) : result unit * State :=
  configure (mkState (mk job_store_address (default false pre_delete_jobs) None) w).

(** [self.scheduler.add_job(func, 'cron', minute=.., .., id=..,
    jobstore=.., args=.., max_instances=..)] on a scheduler that is
    not running: the job is queued. *)
Definition add_job (func : string)
  (minute hour day month day_of_week : string)
  (id jobstore : string) (args : list string)
  (max_instances : option Z) : M Job.t :=
  self ← get_self;
  match scheduler self with
  | None =>
      raise (AttributeError "'NoneType' object has no attribute 'add_job'")
  | Some sched =>
      let job :=
        make_job (BackgroundScheduler.timezone sched)
          (BackgroundScheduler.job_defaults sched)
          func minute hour day month day_of_week id args max_instances in
      lift (cron_trigger_check (Job.trigger job));;
      set_scheduler
        (BackgroundScheduler.append_pending sched (job, jobstore, false));;
      mret job
  end.

(** The body of the loop of [seed_jobs]. *)
Definition seed_job (cronjob : CronJob.t) : M unit :=
  if CronJob.enabled cronjob then
    fields ← lift (unpack5 (Str.split (CronJob.crontab cronjob)));
    let '(minute, hour, day, month, day_of_week) := fields in
    add_job "my_job" minute hour day month day_of_week
      (pretty (CronJob.id cronjob)) "default" [CronJob.job cronjob]
      (Some 4%Z);;
    mret ()
  else mret ().

Definition seed_jobs : M unit :=
  (* Initial load of jobs from cronjobs.json *)
  w ← get_world;
  let cronjobs := World.cronjobs w in
  for_each cronjobs seed_job.

(** [st = Supertask(..); st.seed_jobs()]: the statements of
    [run_supertask] before [st.start()], with its default for
    [pre_delete_jobs]. *)
Definition construct_and_seed (job_store_address : string)
  (pre_delete_jobs : option bool) (w : World.t) : result unit * State :=
  let pre_delete_jobs := default false pre_delete_jobs in
  match init job_store_address (Some pre_delete_jobs) w with
  | (Ok _, st) => seed_jobs st
  | (Raise e, st) => (Raise e, st)
  end.

Definition start_scheduler : M unit :=
  self ← get_self;
  match scheduler self with
  | None => raise (AttributeError "'NoneType' object has no attribute 'start'")
  | Some _ => scheduler_start
  end.

Definition start_filesystem_observer : M unit := observer_start.

Definition start_http_service : M unit := http_service_start.

Definition start : M unit :=
  start_scheduler;;
  start_filesystem_observer;;
  start_http_service.

(** [run_supertask(job_store_address, pre_delete_jobs=False)]; [None]
    stands for an argument left out. *)
Definition run_supertask (job_store_address : string)
  (pre_delete_jobs : option bool) (w : World.t) : result unit * State :=
  match construct_and_seed job_store_address pre_delete_jobs w with
  | (Ok _, st) => start st
  | (Raise e, st) => (Raise e, st)
  end.

End Library.

End Supertask.

(** ** Observations used to state the properties *)

Module Obs.
Import Supertask.

(** The address has one of the three schemes [configure] knows. *)
Definition known_address (address : string) : bool :=
  Str.startswith address "memory://"
  || Str.startswith address "postgresql://"
  || Str.startswith address "crate://".

(** The address is one for which [configure] gets a job store: a memory
    address, or a durable one that the constructor of its store takes. *)
Definition accepted (job_store_init : JobStore.t → result unit)
  (address : string) : Prop :=
  Str.startswith address "memory://" = true
  ∨ (Str.startswith address "postgresql://" = true
     ∧ job_store_init (JobStore.SQLAlchemyJobStore address true) = Ok ())
  ∨ (Str.startswith address "crate://" = true
     ∧ job_store_init (JobStore.CrateDBSQLAlchemyJobStore address true) = Ok ()).

(** [self.scheduler._jobstores['default']] *)
Definition configured_store (st : State) : option JobStore.t :=
  sched ← scheduler (self st); BackgroundScheduler.jobstores sched !! "default".


(** The jobs the scheduler holds, none when there is no scheduler. *)
Definition scheduled_jobs (st : State) : list Job.t :=
  match scheduler (self st) with
  | Some sched => BackgroundScheduler.get_jobs sched
  | None => []
  end.

(** The entry [seed_jobs] queues for an enabled definition whose crontab
    splits into five fields. *)
Definition seeds (timezone : string) (defaults : JobDefaults.t)
  (cronjob : CronJob.t) (entry : Job.t * string * bool) : Prop :=
  ∃ minute hour day month day_of_week,
    Str.split (CronJob.crontab cronjob) = [minute; hour; day; month; day_of_week]
    ∧ entry = (make_job timezone defaults "my_job"
                 minute hour day month day_of_week
                 (pretty (CronJob.id cronjob)) [CronJob.job cronjob] (Some 4%Z),
               "default", false).

(** A definition the loop of [seed_jobs] gets past: it is disabled, or
    its crontab splits into five fields that the trigger accepts. *)
Definition seedable (check : CronTrigger.t → result unit) (timezone : string)
  (cronjob : CronJob.t) : Prop :=
  CronJob.enabled cronjob = true →
  ∃ minute hour day month day_of_week,
    Str.split (CronJob.crontab cronjob) = [minute; hour; day; month; day_of_week]
    ∧ check (CronTrigger.mk minute hour day month day_of_week timezone) = Ok ().

(** What a seeded job shows of its definition. *)
Definition job_key (j : Job.t) : string * list string := (Job.id j, Job.args j).
Definition cronjob_key (c : CronJob.t) : string * list string :=
  (pretty (CronJob.id c), [CronJob.job c]).

(** A trigger check that accepts every trigger, to run examples. *)
Definition accept_all (trigger : CronTrigger.t) : result unit := Ok ().

(** Store constructors to run examples: one that takes every address, and
    one that raises on an address whose port is not a number, as the
    parsing of the address does. *)
Definition any_store (job_store : JobStore.t) : result unit := Ok ().

(** A service that starts without an error and changes nothing. *)
Definition quiet_start : M unit := mret ().

Definition numeric_port (job_store : JobStore.t) : result unit :=
  match job_store with
  | JobStore.MemoryJobStore _ => Ok ()
  | JobStore.SQLAlchemyJobStore url _
  | JobStore.CrateDBSQLAlchemyJobStore url _ =>
      if decide (url = "postgresql://localhost:notaport/db")
      then Raise (ValueError "invalid literal for int() with base 10: 'notaport'")
      else Ok ()
  end.

End Obs.

(** ** Definitions and worlds to run the code on *)

Module Examples.
Definition every_five_minutes : CronJob.t :=
  CronJob.mk 1 "*/5 * * * *" "job1" true None None.
Definition noon_disabled : CronJob.t :=
  CronJob.mk 2 "0 12 * * *" "job2" false None None.
Definition three_fields : CronJob.t :=
  CronJob.mk 3 "*/5 * *" "job3" true None None.
Definition three_fields_disabled : CronJob.t :=
  CronJob.mk 4 "*/5 * *" "job4" false None None.

Definition world_of (cronjobs : list CronJob.t) : World.t :=
  World.mk None [] cronjobs.
End Examples.

(** ** Shapes of texts *)

Module Shape.

(** No character of the text is whitespace. *)
Fixpoint no_space (s : string) : bool :=
  match s with
  | "" => true
  | String c s' => negb (Str.is_space c) && no_space s'
  end.

(** Every character of the text is whitespace. *)
Fixpoint all_space (s : string) : bool :=
  match s with
  | "" => true
  | String c s' => Str.is_space c && all_space s'
  end.

(** A word: not empty, no whitespace. *)
Definition word (s : string) : Prop := s ≠ "" ∧ no_space s = true.

(** A separator: not empty, whitespace only. *)
Definition separator (s : string) : Prop := s ≠ "" ∧ all_space s = true.

(** The least number of characters of a word of a regular expression. *)
Fixpoint min_len (r : Re.regex) : nat :=
  match r with
  | Re.Lit _ => 1
  | Re.Digit => 1
  | Re.Cat r1 r2 => min_len r1 + min_len r2
  | Re.Alt r1 r2 => min_len r1 `min` min_len r2
  | Re.Plus r' => min_len r'
  | Re.Opt _ => 0
  | Re.Repeat lo _ r' => lo * min_len r'
  end.

(** No literal of the regular expression is whitespace. *)
Fixpoint spaceless (r : Re.regex) : bool :=
  match r with
  | Re.Lit c => negb (Str.is_space c)
  | Re.Digit => true
  | Re.Cat r1 r2 | Re.Alt r1 r2 => spaceless r1 && spaceless r2
  | Re.Plus r' | Re.Opt r' | Re.Repeat _ _ r' => spaceless r'
  end.

End Shape.

(** * Facts *)

(** ** Strings *)

Module StrFacts.
Import Str.

Lemma app_nil_l (s : string) : "" +:+ s = s.
Proof. reflexivity. Qed.

Lemma app_cons (c : ascii) (s t : string) :
  String c s +:+ t = String c (s +:+ t).
Proof. reflexivity. Qed.

Lemma app_nil_r (s : string) : s +:+ "" = s.
Proof. induction s as [|c s IH]; [done | by rewrite app_cons, IH]. Qed.

Lemma app_assoc (s1 s2 s3 : string) : (s1 +:+ s2) +:+ s3 = s1 +:+ s2 +:+ s3.
Proof. induction s1 as [|c s1 IH]; [done | by rewrite !app_cons, IH]. Qed.

Lemma length_app (s1 s2 : string) :
  String.length (s1 +:+ s2) = String.length s1 + String.length s2.
Proof. induction s1 as [|c s1 IH]; [done | by rewrite app_cons; simpl; rewrite IH]. Qed.

Lemma app_eq_nil (s1 s2 : string) : s1 +:+ s2 = "" → s1 = "" ∧ s2 = "".
Proof. destruct s1; [done | rewrite app_cons; discriminate]. Qed.

Lemma startswith_spec (s p : string) :
  startswith s p = true ↔ ∃ t, s = p +:+ t.
Proof.
  revert s. induction p as [|a p IH]; intros s; simpl.
  - split; [intros _; by exists s | by destruct s].
  - destruct s as [|b s]; simpl.
    + split; [done | intros [t Ht]; rewrite app_cons in Ht; discriminate].
    + destruct (decide (a = b)) as [->|Hne].
      * rewrite IH. split; intros [t Ht]; exists t; rewrite app_cons in *; congruence.
      * split; [done | intros [t Ht]; rewrite app_cons in Ht; congruence].
Qed.

End StrFacts.

(** ** The matcher computes the prefixes in the language *)

Module ReFacts.
Import Re StrFacts.

Lemma plus_iter_mono (f : string → list string) (n m : nat) (s x : string) :
  (n ≤ m)%nat → x ∈ plus_iter n f s → x ∈ plus_iter m f s.
Proof.
  revert m s. induction n as [|n IH]; intros m s Hle Hin; simpl in Hin.
  - by apply elem_of_nil in Hin.
  - destruct m as [|m]; [lia|]. simpl.
    apply list_elem_of_bind in Hin as (y & Hy & Hfy).
    apply list_elem_of_bind. exists y. split; [|done].
    apply elem_of_app in Hy as [Hy|Hy]; apply elem_of_app; [left|by right].
    apply IH; [lia|done].
Qed.

Section Loops.
Variable r : regex.
Hypothesis sound : ∀ s s', s' ∈ ends r s → ∃ p, lang r p ∧ s = p +:+ s'.

Lemma plus_iter_sound (n : nat) (s s' : string) :
  s' ∈ plus_iter n (ends r) s → ∃ p, lang (Plus r) p ∧ s = p +:+ s'.
Proof.
  revert s. induction n as [|n IH]; intros s Hin; simpl in Hin.
  - by apply elem_of_nil in Hin.
  - apply list_elem_of_bind in Hin as (y & Hy & Hfy).
    apply sound in Hfy as (p1 & Hp1 & ->).
    apply elem_of_app in Hy as [Hy|Hy].
    + apply IH in Hy as (p2 & Hp2 & ->).
      exists (p1 +:+ p2). split; [by apply lang_plus_more|].
      by rewrite app_assoc.
    + apply list_elem_of_singleton in Hy as ->.
      exists p1. split; [by apply lang_plus_one|done].
Qed.

Lemma rep_sound (lo hi : nat) (s s' : string) :
  s' ∈ rep (ends r) lo hi s → ∃ p, lang (Repeat lo hi r) p ∧ s = p +:+ s'.
Proof.
  revert lo s. induction hi as [|hi IH]; intros lo s Hin; simpl in Hin.
  - destruct lo; [|by apply elem_of_nil in Hin].
    apply list_elem_of_singleton in Hin as ->.
    exists "". split; [apply lang_rep_stop|done].
  - apply elem_of_app in Hin as [Hin|Hin].
    + apply list_elem_of_bind in Hin as (y & Hy & Hfy).
      apply sound in Hfy as (p1 & Hp1 & ->).
      apply IH in Hy as (p2 & Hp2 & ->).
      exists (p1 +:+ p2). split; [by apply lang_rep_step|].
      by rewrite app_assoc.
    + destruct lo; [|by apply elem_of_nil in Hin].
      apply list_elem_of_singleton in Hin as ->.
      exists "". split; [apply lang_rep_stop|done].
Qed.
End Loops.

Lemma ends_sound (r : regex) (s s' : string) :
  s' ∈ ends r s → ∃ p, lang r p ∧ s = p +:+ s'.
Proof.
  revert s s'. induction r as [c| |r1 IH1 r2 IH2|r1 IH1 r2 IH2|r IH|r IH|lo hi r IH];
    intros s s' Hin.
  - simpl in Hin. destruct s as [|a s]; [by apply elem_of_nil in Hin|].
    case_decide as Hac; [|by apply elem_of_nil in Hin].
    apply list_elem_of_singleton in Hin as ->. subst a.
    exists (String c ""). split; [constructor|done].
  - simpl in Hin. destruct s as [|a s]; [by apply elem_of_nil in Hin|].
    destruct (is_digit a) eqn:Ha; [|by apply elem_of_nil in Hin].
    apply list_elem_of_singleton in Hin as ->.
    exists (String a ""). split; [by constructor|done].
  - simpl in Hin. apply list_elem_of_bind in Hin as (y & Hy & Hfy).
    apply IH1 in Hfy as (p1 & Hp1 & ->). apply IH2 in Hy as (p2 & Hp2 & ->).
    exists (p1 +:+ p2). split; [by constructor|by rewrite app_assoc].
  - simpl in Hin. apply elem_of_app in Hin as [Hin|Hin].
    + apply IH1 in Hin as (p & Hp & ->). exists p. split; [by apply lang_alt_l|done].
    + apply IH2 in Hin as (p & Hp & ->). exists p. split; [by apply lang_alt_r|done].
  - by apply (plus_iter_sound r IH (S (String.length s))).
  - simpl in Hin. apply elem_of_app in Hin as [Hin|Hin].
    + apply IH in Hin as (p & Hp & ->). exists p. split; [by apply lang_opt_some|done].
    + apply list_elem_of_singleton in Hin as ->.
      exists "". split; [apply lang_opt_none|done].
  - by apply (rep_sound r IH).
Qed.

Lemma ends_plus_unfold (r : regex) (s : string) :
  ends (Plus r) s
  = s' ← ends r s; plus_iter (String.length s) (ends r) s' ++ [s'].
Proof. reflexivity. Qed.

Lemma ends_complete (r : regex) (p : string) :
  lang r p → ∀ t, t ∈ ends r (p +:+ t).
Proof.
  induction 1 as [c|c Hc|r1 r2 p1 p2 _ IH1 _ IH2|r1 r2 p _ IH|r1 r2 p _ IH
                 |r p _ IH|r p1 p2 _ IH1 _ IH2|r|r p _ IH|hi r
                 |lo hi r p1 p2 _ IH1 _ IH2]; intros t.
  - rewrite app_cons, app_nil_l. simpl. case_decide; [|done].
    by apply list_elem_of_singleton.
  - rewrite app_cons, app_nil_l. simpl. rewrite Hc.
    by apply list_elem_of_singleton.
  - rewrite app_assoc. simpl. apply list_elem_of_bind.
    exists (p2 +:+ t). split; [apply IH2|apply IH1].
  - simpl. apply elem_of_app. left. apply IH.
  - simpl. apply elem_of_app. right. apply IH.
  - simpl. apply list_elem_of_bind. exists t. split; [|apply IH].
    apply elem_of_app. right. by apply list_elem_of_singleton.
  - destruct p1 as [|a p1]; [rewrite app_nil_l; apply IH2|].
    rewrite app_assoc, ends_plus_unfold. apply list_elem_of_bind.
    exists (p2 +:+ t). split; [|apply (IH1 (p2 +:+ t))].
    apply elem_of_app. left.
    apply (plus_iter_mono _ (S (String.length (p2 +:+ t)))); [|apply IH2].
    rewrite app_cons. simpl. rewrite !length_app. lia.
  - rewrite app_nil_l. simpl. apply elem_of_app. right.
    by apply list_elem_of_singleton.
  - simpl. apply elem_of_app. left. apply IH.
  - rewrite app_nil_l. simpl. destruct hi; simpl.
    + by apply list_elem_of_singleton.
    + apply elem_of_app. right. by apply list_elem_of_singleton.
  - rewrite app_assoc. simpl. apply elem_of_app. left.
    apply list_elem_of_bind. exists (p2 +:+ t). split; [apply IH2|apply IH1].
Qed.

(** [ends r s] holds exactly the remainders of [s] after a prefix in the
    language of [r]: the fuel of [plus_iter] loses no match. *)
Lemma ends_spec (r : regex) (s s' : string) :
  s' ∈ ends r s ↔ ∃ p, lang r p ∧ s = p +:+ s'.
Proof.
  split; [apply ends_sound|].
  intros (p & Hp & ->). by apply ends_complete.
Qed.

(** [re.match] succeeds exactly when a prefix of the input is in the
    language of the pattern. *)
Lemma re_match_spec (r : regex) (s : string) :
  is_Some (re_match r s) ↔ ∃ p t, lang r p ∧ s = p +:+ t.
Proof.
  unfold re_match. rewrite head_is_Some. split.
  - destruct (ends r s) as [|s' l] eqn:He; [done|]. intros _.
    assert (Hin : s' ∈ ends r s) by (rewrite He; left).
    apply ends_spec in Hin as (p & Hp & ->). by exists p, s'.
  - intros (p & t & Hp & ->) He.
    pose proof (ends_complete r p Hp t) as Hin. rewrite He in Hin.
    by apply elem_of_nil in Hin.
Qed.

(** A match is kept when text is appended to the input. *)
Lemma re_match_extend (r : regex) (s t : string) :
  is_Some (re_match r s) → is_Some (re_match r (s +:+ t)).
Proof.
  rewrite !re_match_spec. intros (p & u & Hp & ->).
  exists p, (u +:+ t). split; [done|]. by rewrite app_assoc.
Qed.

End ReFacts.

(** ** The crontab validator *)

Module CronJobFacts.
Import Re StrFacts ReFacts CronJob.

(** [validate_crontab] returns its argument exactly when a prefix of it is
    in the language of the pattern, and raises [ValueError] otherwise. *)
Lemma validate_crontab_spec (v : string) :
  (validate_crontab v = Ok v ↔ ∃ p t, lang pattern p ∧ v = p +:+ t)
  ∧ (validate_crontab v = Ok v
     ∨ validate_crontab v = Raise (ValueError "Invalid crontab syntax")).
Proof.
  pose proof (re_match_spec pattern v) as Hspec.
  unfold validate_crontab.
  destruct (re_match pattern v) as [rest|].
  - split; [|by left]. split; [|done].
    intros _. apply Hspec. by exists rest.
  - split; [|by right]. split; [done|].
    intros H. apply Hspec in H. by destruct H.
Qed.

Lemma validate_crontab_extend (v t : string) :
  validate_crontab v = Ok v → validate_crontab (v +:+ t) = Ok (v +:+ t).
Proof.
  intros Hv. apply validate_crontab_spec.
  apply validate_crontab_spec in Hv as (p & u & Hp & ->).
  exists p, (u +:+ t). split; [done|]. by rewrite app_assoc.
Qed.

(** One repetition of the pattern: a field, then the optional space. *)
Lemma lang_field_space (f : string) :
  lang field f → lang (Cat field (Opt (Lit " "))) (f +:+ " ").
Proof. intros Hf. apply lang_cat; [done|]. apply lang_opt_some, lang_lit. Qed.

Lemma lang_field_last (f : string) :
  lang field f → lang (Cat field (Opt (Lit " "))) (f +:+ "").
Proof. intros Hf. apply lang_cat; [done|]. apply lang_opt_none. Qed.

(** Five fields separated by single spaces are in the language. *)
Lemma lang_pattern_five (f1 f2 f3 f4 f5 : string) :
  lang field f1 → lang field f2 → lang field f3 → lang field f4 →
  lang field f5 →
  lang pattern (f1 +:+ " " +:+ f2 +:+ " " +:+ f3 +:+ " " +:+ f4 +:+ " " +:+ f5).
Proof.
  intros H1 H2 H3 H4 H5.
  assert (Hl : lang pattern
            ((f1 +:+ " ") +:+ (f2 +:+ " ") +:+ (f3 +:+ " ") +:+ (f4 +:+ " ")
             +:+ (f5 +:+ "") +:+ "")).
  { unfold pattern.
    apply (lang_rep_step 5 6); [by apply lang_field_space|].
    apply (lang_rep_step 4 5); [by apply lang_field_space|].
    apply (lang_rep_step 3 4); [by apply lang_field_space|].
    apply (lang_rep_step 2 3); [by apply lang_field_space|].
    apply (lang_rep_step 1 2); [by apply lang_field_last|].
    apply lang_rep_stop. }
  by rewrite !app_assoc, !app_nil_r in Hl.
Qed.

End CronJobFacts.

(** C3.  The validator does not take the star-step form: on the five-field
    expression [*/5 * * * *] it raises [ValueError], because no prefix of
    the text is in the language of the pattern (after the star the next
    repetition would have to start at the slash).  The seeding path splits
    the same text into the five fields it hands to the cron trigger. *)
Theorem validate_crontab_star_step :
  CronJob.validate_crontab "*/5 * * * *"
  = Raise (ValueError "Invalid crontab syntax")
  ∧ (¬ ∃ p t, Re.lang CronJob.pattern p ∧ "*/5 * * * *" = p +:+ t)
  ∧ Supertask.unpack5 (Str.split "*/5 * * * *") = Ok ("*/5", "*", "*", "*", "*").
Proof.
  assert (Hr : CronJob.validate_crontab "*/5 * * * *"
               = Raise (ValueError "Invalid crontab syntax"))
    by (vm_compute; reflexivity).
  split; [done|]. split; [|vm_compute; reflexivity].
  intros H. apply CronJobFacts.validate_crontab_spec in H.
  rewrite Hr in H. discriminate.
Qed.

(** C10.  The validator accepts texts that are not five-field cron
    expressions and returns them unchanged: the separator-free [12345],
    which is a single field, and five valid fields followed by any
    trailing text, such as [1 2 3 4 5 garbage], which has six fields. *)
Theorem validate_crontab_accepts_malformed :
  (CronJob.validate_crontab "12345" = Ok "12345"
   ∧ Str.split "12345" = ["12345"])
  ∧ (CronJob.validate_crontab "1 2 3 4 5 garbage" = Ok "1 2 3 4 5 garbage"
     ∧ Str.split "1 2 3 4 5 garbage" = ["1"; "2"; "3"; "4"; "5"; "garbage"])
  ∧ (∀ f1 f2 f3 f4 f5 rest : string,
       Re.lang CronJob.field f1 → Re.lang CronJob.field f2 →
       Re.lang CronJob.field f3 → Re.lang CronJob.field f4 →
       Re.lang CronJob.field f5 →
       let v := f1 +:+ " " +:+ f2 +:+ " " +:+ f3 +:+ " " +:+ f4 +:+ " " +:+ f5
                +:+ rest in
       CronJob.validate_crontab v = Ok v).
Proof.
  split; [split; vm_compute; reflexivity|].
  split; [split; vm_compute; reflexivity|].
  intros f1 f2 f3 f4 f5 rest H1 H2 H3 H4 H5 v.
  apply CronJobFacts.validate_crontab_spec.
  exists (f1 +:+ " " +:+ f2 +:+ " " +:+ f3 +:+ " " +:+ f4 +:+ " " +:+ f5), rest.
  split; [by apply CronJobFacts.lang_pattern_five|].
  unfold v. by rewrite !StrFacts.app_assoc.
Qed.

Lemma lang_field_digit (c : ascii) :
  Re.is_digit c = true → Re.lang CronJob.field (String c "").
Proof.
  intros Hc. apply Re.lang_alt_r, Re.lang_alt_r, Re.lang_alt_l.
  by apply Re.lang_plus_one, Re.lang_digit.
Qed.

(** The general part of C10 at the fields 1 to 5 and the rest [ garbage]. *)
Lemma validate_crontab_accepts_malformed_witness :
  (Re.lang CronJob.field "1" ∧ Re.lang CronJob.field "2"
   ∧ Re.lang CronJob.field "3" ∧ Re.lang CronJob.field "4"
   ∧ Re.lang CronJob.field "5")
  ∧ CronJob.validate_crontab "1 2 3 4 5 garbage" = Ok "1 2 3 4 5 garbage".
Proof.
  split; [repeat split; by apply lang_field_digit|].
  apply (proj2 (proj2 validate_crontab_accepts_malformed)
           "1" "2" "3" "4" "5" " garbage"); by apply lang_field_digit.
Defined.

(** ** [configure] and [seed_jobs] *)

Module SupertaskFacts.
Import Supertask Obs.

Ltac unfold_M :=
  unfold init, configure, remove_all_jobs, try_except_pass, add_job,
    get_self, get_world, put_world, set_scheduler, raise, lift,
    mbind, M_bind, mret, M_ret in *.

(** *** The monad *)

Lemma bind_ok {A B} (m : M A) (k : A → M B) (st st' : State) (a : A) :
  m st = (Ok a, st') → (m ≫= k) st = k a st'.
Proof. intros H. unfold mbind, M_bind. by rewrite H. Qed.

Lemma bind_raise {A B} (m : M A) (k : A → M B) (st st' : State) (e : exn) :
  m st = (Raise e, st') → (m ≫= k) st = (Raise e, st').
Proof. intros H. unfold mbind, M_bind. by rewrite H. Qed.


(** *** Unpacking *)

Lemma unpack5_Ok (l : list string) (a b c d e : string) :
  unpack5 l = Ok (a, b, c, d, e) ↔ l = [a; b; c; d; e].
Proof.
  split; [|by intros ->].
  destruct l as [|? [|? [|? [|? [|? [|? ?]]]]]]; simpl; try done.
  by intros [= -> -> -> -> ->].
Qed.


Lemma unpack5_three (l : list string) :
  length l = 3 →
  unpack5 l
  = Raise (ValueError "not enough values to unpack (expected 5, got 3)").
Proof.
  intros Hl. destruct l as [|? [|? [|? [|? ?]]]]; simpl in *; try done.
Qed.


(** *** One definition *)

Section Seeding.
Variable check : CronTrigger.t → result unit.

Lemma seed_job_disabled (cj : CronJob.t) (st : State) :
  CronJob.enabled cj = false → seed_job check cj st = (Ok (), st).
Proof. intros H. unfold seed_job. by rewrite H. Qed.

Lemma seed_job_unpack_raise (cj : CronJob.t) (st : State) (e : exn) :
  CronJob.enabled cj = true →
  unpack5 (Str.split (CronJob.crontab cj)) = Raise e →
  seed_job check cj st = (Raise e, st).
Proof. intros H Hu. unfold seed_job. rewrite H. unfold_M. by rewrite Hu. Qed.

Lemma seed_job_check_raise (cj : CronJob.t) (st : State)
  (sched : BackgroundScheduler.t) (a b c d e : string) (err : exn) :
  CronJob.enabled cj = true →
  Str.split (CronJob.crontab cj) = [a; b; c; d; e] →
  scheduler (self st) = Some sched →
  check (CronTrigger.mk a b c d e (BackgroundScheduler.timezone sched))
  = Raise err →
  seed_job check cj st = (Raise err, st).
Proof.
  intros H Hs Hsched Hc. unfold seed_job. rewrite H, Hs. unfold_M. simpl.
  rewrite Hsched. simpl. by rewrite Hc.
Qed.

Lemma seed_job_ok (cj : CronJob.t) (st : State)
  (sched : BackgroundScheduler.t) (a b c d e : string) :
  CronJob.enabled cj = true →
  Str.split (CronJob.crontab cj) = [a; b; c; d; e] →
  scheduler (self st) = Some sched →
  check (CronTrigger.mk a b c d e (BackgroundScheduler.timezone sched))
  = Ok () →
  seed_job check cj st
  = (Ok (),
     mkState
       (mk (job_store_address (self st)) (pre_delete_jobs (self st))
          (Some (BackgroundScheduler.append_pending sched
                   (make_job (BackgroundScheduler.timezone sched)
                      (BackgroundScheduler.job_defaults sched)
                      "my_job" a b c d e
                      (pretty (CronJob.id cj)) [CronJob.job cj] (Some 4%Z),
                    "default", false))))
       (world st)).
Proof.
  intros H Hs Hsched Hc. unfold seed_job. rewrite H, Hs. unfold_M. simpl.
  rewrite Hsched. simpl. by rewrite Hc.
Qed.

(** *** The loop *)

Lemma state_eta (st : State) (sched : BackgroundScheduler.t) :
  scheduler (self st) = Some sched →
  st = mkState
         (mk (job_store_address (self st)) (pre_delete_jobs (self st))
            (Some (BackgroundScheduler.mk
                     (BackgroundScheduler.executors sched)
                     (BackgroundScheduler.job_defaults sched)
                     (BackgroundScheduler.jobstores sched)
                     (BackgroundScheduler.timezone sched)
                     (BackgroundScheduler.pending_jobs sched ++ []))))
         (world st).
Proof.
  intros H. destruct st as [[addr flag s] w], sched. simpl in *. subst s.
  by rewrite app_nil_r.
Qed.

Lemma for_each_seed (l : list CronJob.t) (st : State)
  (sched : BackgroundScheduler.t) :
  scheduler (self st) = Some sched →
  ∃ (seeded : list CronJob.t) (added : list (Job.t * string * bool)),
    (for_each l (seed_job check) st).2
    = mkState
        (mk (job_store_address (self st)) (pre_delete_jobs (self st))
           (Some (BackgroundScheduler.mk
                    (BackgroundScheduler.executors sched)
                    (BackgroundScheduler.job_defaults sched)
                    (BackgroundScheduler.jobstores sched)
                    (BackgroundScheduler.timezone sched)
                    (BackgroundScheduler.pending_jobs sched ++ added))))
        (world st)
    ∧ Forall2 (seeds (BackgroundScheduler.timezone sched)
                 (BackgroundScheduler.job_defaults sched)) seeded added
    ∧ seeded `prefix_of` List.filter CronJob.enabled l
    ∧ ((for_each l (seed_job check) st).1 = Ok () →
       seeded = List.filter CronJob.enabled l)
    ∧ (Forall (seedable check (BackgroundScheduler.timezone sched)) l →
       (for_each l (seed_job check) st).1 = Ok ()).
Proof.
  revert st sched. induction l as [|cj l IH]; intros st sched Hsched.
  - exists [], []. simpl. split_and!; try done.
    by apply state_eta.
  - simpl. destruct (CronJob.enabled cj) eqn:Hen.
    + destruct (unpack5 (Str.split (CronJob.crontab cj)))
        as [[[[[a b] c] d] e]|err] eqn:Hu.
      * apply unpack5_Ok in Hu.
        destruct (check (CronTrigger.mk a b c d e
                           (BackgroundScheduler.timezone sched)))
          as [[]|err] eqn:Hc.
        -- erewrite bind_ok by (by eapply seed_job_ok).
           match goal with
           | |- context [for_each l _ ?s] =>
               destruct (IH s _ eq_refl)
                 as (seeded & added & Hst & Hf & Hpre & Hok & Hall)
           end.
           simpl in *.
           exists (cj :: seeded),
             ((make_job (BackgroundScheduler.timezone sched)
                 (BackgroundScheduler.job_defaults sched)
                 "my_job" a b c d e
                 (pretty (CronJob.id cj)) [CronJob.job cj] (Some 4%Z),
               "default", false) :: added).
           rewrite Hst.
           split_and!.
           ++ by rewrite <- app_assoc.
           ++ constructor; [|done]. by exists a, b, c, d, e.
           ++ by apply prefix_cons.
           ++ intros H. by rewrite Hok.
           ++ intros H. apply Hall. by inversion H.
        -- erewrite bind_raise by (by eapply seed_job_check_raise).
           exists [], []. simpl. split_and!; try done.
           ++ by apply state_eta.
           ++ apply prefix_nil.
           ++ intros H. inversion H as [|? ? Hcj _]; subst.
              destruct (Hcj Hen) as (a' & b' & c' & d' & e' & Hs & Hc').
              rewrite Hu in Hs. injection Hs as <- <- <- <- <-. congruence.
      * erewrite bind_raise by (by eapply seed_job_unpack_raise).
        exists [], []. simpl. split_and!; try done.
        ++ by apply state_eta.
        ++ apply prefix_nil.
        ++ intros H. inversion H as [|? ? Hcj _]; subst.
           destruct (Hcj Hen) as (a' & b' & c' & d' & e' & Hs & Hc').
           rewrite Hs in Hu. discriminate.
    + erewrite bind_ok by (by eapply seed_job_disabled).
      destruct (IH st sched Hsched) as (seeded & added & Hst & Hf & Hpre & Hok & Hall).
      exists seeded, added. split_and!; try done.
      intros H. apply Hall. by inversion H.
Qed.
End Seeding.

Lemma schemes_exclusive (s : string) :
  (Str.startswith s "memory://" = true →
   Str.startswith s "postgresql://" = false ∧ Str.startswith s "crate://" = false)
  ∧ (Str.startswith s "postgresql://" = true → Str.startswith s "crate://" = false).
Proof.
  destruct s as [|a s]; [done|]. simpl.
  repeat case_decide; subst; done.
Qed.

(** The three ways an address can be known, and the unknown one. *)
Lemma address_cases (addr : string) :
  (Str.startswith addr "memory://" = true
   ∧ Str.startswith addr "postgresql://" = false
   ∧ Str.startswith addr "crate://" = false)
  ∨ (Str.startswith addr "memory://" = false
     ∧ Str.startswith addr "postgresql://" = true
     ∧ Str.startswith addr "crate://" = false)
  ∨ (Str.startswith addr "memory://" = false
     ∧ Str.startswith addr "postgresql://" = false
     ∧ Str.startswith addr "crate://" = true)
  ∨ (Str.startswith addr "memory://" = false
     ∧ Str.startswith addr "postgresql://" = false
     ∧ Str.startswith addr "crate://" = false).
Proof.
  destruct (schemes_exclusive addr) as [Hm Hp].
  destruct (Str.startswith addr "memory://");
    [destruct (Hm eq_refl) as [-> ->]; tauto|].
  destruct (Str.startswith addr "postgresql://");
    [rewrite (Hp eq_refl); tauto|].
  destruct (Str.startswith addr "crate://"); tauto.
Qed.

Ltac by_address addr :=
  unfold known_address in *;
  destruct (address_cases addr) as [(Hm & Hp & Hc)|[(Hm & Hp & Hc)|[(Hm & Hp & Hc)|(Hm & Hp & Hc)]]];
  rewrite ?Hm, ?Hp, ?Hc in *.

Ltac rewrite_schemes :=
  repeat match goal with
         | H : Str.startswith _ _ = _ |- _ => rewrite H
         end.

Ltac run_configure := unfold_M; simpl; rewrite_schemes; simpl.

Section Constructors.
Variable store_init : JobStore.t → result unit.

Lemma init_accepted (addr : string) (flag : option bool) (w : World.t) :
  accepted store_init addr →
  ∃ store w',
    init store_init addr flag w
    = (Ok (),
       mkState
         (mk addr (default false flag)
            (Some (BackgroundScheduler.mk
                     (<["default" := ThreadPoolExecutor 20]>
                        (<["processpool" := ProcessPoolExecutor 5]> ∅))
                     (JobDefaults.mk false 1)
                     (<["default" := store]> ∅)
                     "Europe/Vienna" [])))
         w')
    ∧ World.cronjobs w' = World.cronjobs w.
Proof.
  intros Hacc. unfold accepted in Hacc.
  by_address addr; run_configure.
  4: { by destruct Hacc as [?|[[? _]|[? _]]]. }
  2: { destruct Hacc as [?|[[_ ->]|[? _]]]; [done| |done]. simpl.
       destruct (default false flag); simpl; eauto.
       destruct (World.jobs_table w); simpl; eauto. }
  2: { destruct Hacc as [?|[[? _]|[_ ->]]]; [done|done|]. simpl.
       destruct (default false flag); simpl; eauto.
       destruct (World.jobs_table w); simpl; eauto. }
  destruct (default false flag); simpl; eauto.
Qed.

(** When the address is not accepted, [configure] raises before anything
    is changed. *)
Lemma init_rejected (addr : string) (flag : option bool) (w : World.t) :
  ¬ accepted store_init addr →
  ∃ e, init store_init addr flag w
       = (Raise e, mkState (mk addr (default false flag) None) w).
Proof.
  intros Hacc. unfold accepted in Hacc.
  by_address addr; run_configure.
  - exfalso. apply Hacc. by left.
  - destruct (store_init (JobStore.SQLAlchemyJobStore addr true))
      as [[]|e] eqn:Hi; simpl; [|eauto].
    exfalso. apply Hacc. right. left. by split.
  - destruct (store_init (JobStore.CrateDBSQLAlchemyJobStore addr true))
      as [[]|e] eqn:Hi; simpl; [|eauto].
    exfalso. apply Hacc. right. right. by split.
  - eauto.
Qed.

Lemma init_unknown (addr : string) (flag : option bool) (w : World.t) :
  known_address addr = false →
  init store_init addr flag w
  = (Raise (RuntimeError ("Initializing job store failed. Unknown address: "
                          +:+ addr)),
     mkState (mk addr (default false flag) None) w).
Proof.
  intros Hk. by_address addr; try done. by run_configure.
Qed.

Lemma accepted_known (addr : string) :
  accepted store_init addr → known_address addr = true.
Proof.
  unfold accepted, known_address.
  intros [->|[[-> _]|[-> _]]]; by rewrite ?orb_true_r.
Qed.

Lemma accepted_or_not (addr : string) :
  accepted store_init addr ∨ ¬ accepted store_init addr.
Proof.
  unfold accepted. by_address addr.
  - by left; left.
  - destruct (store_init (JobStore.SQLAlchemyJobStore addr true))
      as [[]|e] eqn:Hi.
    + left. right. left. by split.
    + right. intros [?|[[_ ?]|[? _]]]; done.
  - destruct (store_init (JobStore.CrateDBSQLAlchemyJobStore addr true))
      as [[]|e] eqn:Hi.
    + left. right. right. by split.
    + right. intros [?|[[? _]|[_ ?]]]; done.
  - right. intros [?|[[? _]|[? _]]]; done.
Qed.

End Constructors.

Lemma seeds_job (tz : string) (d : JobDefaults.t) (cj : CronJob.t)
  (entry : Job.t * string * bool) :
  seeds tz d cj entry →
  Job.max_instances entry.1.1 = 4%Z
  ∧ CronTrigger.timezone (Job.trigger entry.1.1) = tz
  ∧ job_key entry.1.1 = cronjob_key cj.
Proof. by intros (a & b & c & d' & e & _ & ->). Qed.

Lemma seeds_all (tz : string) (d : JobDefaults.t) (seeded : list CronJob.t)
  (added : list (Job.t * string * bool)) :
  Forall2 (seeds tz d) seeded added →
  Forall (λ j, Job.max_instances j = 4%Z
               ∧ CronTrigger.timezone (Job.trigger j) = tz)
    ((λ p, p.1.1) <$> added)
  ∧ job_key <$> ((λ p, p.1.1) <$> added) = cronjob_key <$> seeded.
Proof.
  induction 1 as [|cj entry seeded added Hs _ [IH1 IH2]]; [by split|].
  apply seeds_job in Hs as (Hmax & Htz & Hkey). simpl. split.
  - by constructor.
  - f_equal; [exact Hkey|exact IH2].
Qed.

Section Startup.
Variable store_init : JobStore.t → result unit.
Variable check : CronTrigger.t → result unit.

Lemma construct_and_seed_eq (addr : string) (flag : option bool) (w : World.t) :
  construct_and_seed store_init check addr flag w
  = match init store_init addr flag w with
    | (Ok _, st) => seed_jobs check st
    | (Raise e, st) => (Raise e, st)
    end.
Proof. reflexivity. Qed.

(** What construction and seeding leave behind when the address is
    accepted: the scheduler of [configure] with the queued entries of the
    seeded definitions. *)
Lemma construct_and_seed_accepted (addr : string) (flag : option bool)
  (w : World.t) :
  accepted store_init addr →
  ∃ store w' seeded added,
    (construct_and_seed store_init check addr flag w).2
    = mkState
        (mk addr (default false flag)
           (Some (BackgroundScheduler.mk
                    (<["default" := ThreadPoolExecutor 20]>
                       (<["processpool" := ProcessPoolExecutor 5]> ∅))
                    (JobDefaults.mk false 1)
                    (<["default" := store]> ∅)
                    "Europe/Vienna" added)))
        w'
    ∧ (init store_init addr flag w).2
      = mkState
          (mk addr (default false flag)
             (Some (BackgroundScheduler.mk
                      (<["default" := ThreadPoolExecutor 20]>
                         (<["processpool" := ProcessPoolExecutor 5]> ∅))
                      (JobDefaults.mk false 1)
                      (<["default" := store]> ∅)
                      "Europe/Vienna" [])))
          w'
    ∧ Forall2 (seeds "Europe/Vienna" (JobDefaults.mk false 1)) seeded added.
Proof.
  intros Hk. destruct (init_accepted store_init addr flag w Hk)
    as (store & w' & Hi & _).
  rewrite construct_and_seed_eq, Hi.
  match goal with
  | |- context [seed_jobs check ?s] =>
      destruct (for_each_seed check (World.cronjobs w') s _ eq_refl)
        as (seeded & added & Hst & Hf & _)
  end.
  exists store, w', seeded, added. split_and!; [|done|exact Hf].
  unfold seed_jobs. unfold_M. simpl. exact Hst.
Qed.

Lemma construct_and_seed_rejected (addr : string) (flag : option bool)
  (w : World.t) :
  ¬ accepted store_init addr →
  construct_and_seed store_init check addr flag w = init store_init addr flag w
  ∧ (init store_init addr flag w).2 = mkState (mk addr (default false flag) None) w.
Proof.
  intros Hk. destruct (init_rejected store_init addr flag w Hk) as [e He].
  by rewrite construct_and_seed_eq, He.
Qed.

End Startup.
End SupertaskFacts.

(** ** The code on concrete inputs *)

Module Tests.
Import Supertask Obs.

Example split_runs_of_whitespace :
  Str.split "  */5  * *
 x " = ["*/5"; "*"; "*"; "x"].
Proof. vm_compute. reflexivity. Qed.

Example split_five_fields :
  Str.split "*/5 * * * *" = ["*/5"; "*"; "*"; "*"; "*"].
Proof. vm_compute. reflexivity. Qed.

Example match_is_greedy :
  Re.re_match CronJob.pattern "1 2 3 4 5 6 7 8" = Some "8".
Proof. vm_compute. reflexivity. Qed.

Example validate_every_minute :
  CronJob.validate_crontab "* * * * *" = Ok "* * * * *".
Proof. vm_compute. reflexivity. Qed.

Example validate_list_range_step :
  CronJob.validate_crontab "1,15 0-6 1/2 * 7" = Ok "1,15 0-6 1/2 * 7".
Proof. vm_compute. reflexivity. Qed.

Example validate_four_fields :
  CronJob.validate_crontab "* * * *"
  = Raise (ValueError "Invalid crontab syntax").
Proof. vm_compute. reflexivity. Qed.

Example validate_names :
  CronJob.validate_crontab "0 0 * jan mon"
  = Raise (ValueError "Invalid crontab syntax").
Proof. vm_compute. reflexivity. Qed.

Example unpack_six :
  unpack5 (Str.split "1 2 3 4 5 garbage")
  = Raise (ValueError "too many values to unpack (expected 5)").
Proof. vm_compute. reflexivity. Qed.

(** The main program, [run_supertask("crate://localhost", True)], up to
    [st.start()]. *)
Example main_program :
  let w := Examples.world_of [Examples.every_five_minutes; Examples.noon_disabled] in
  let out := construct_and_seed any_store accept_all "crate://localhost"
               (Some true) w in
  out.1 = Ok ()
  ∧ World.store_log (world out.2) = [RemoveAllJobs]
  ∧ scheduled_jobs out.2
    = [Job.mk "1" "my_job"
         (CronTrigger.mk "*/5" "*" "*" "*" "*" "Europe/Vienna")
         ["job1"] "default" false 4].
Proof. vm_compute. done. Qed.

(** An address with a known prefix that the store constructor refuses. *)
Example constructor_raises :
  init numeric_port "postgresql://localhost:notaport/db" (Some true)
    (Examples.world_of [])
  = (Raise (ValueError "invalid literal for int() with base 10: 'notaport'"),
     mkState (mk "postgresql://localhost:notaport/db" true None)
       (Examples.world_of [])).
Proof. vm_compute. reflexivity. Qed.

End Tests.

(** * The claims *)

Import Supertask Obs SupertaskFacts.

(** C4, as amended.  [configure] selects by the prefix of the address
    alone which job store it builds: the memory store for [memory://], the
    SQLAlchemy store on that address for [postgresql://], the CrateDB store
    for [crate://].  The memory store is configured exactly when the
    address starts with [memory://]; a durable store is configured exactly
    when the address has its prefix and its constructor returns.  When the
    constructor raises, [configure] raises the same error, and for every
    other address it raises [RuntimeError]; in both cases the object is
    left without a scheduler and the world as it was. *)
Theorem configure_selects_by_prefix (store_init : JobStore.t → result unit)
  (addr : string) (flag : option bool) (w : World.t) :
  let out := init store_init addr flag w in
  (Str.startswith addr "memory://" = true
   ↔ ∃ jobs, configured_store out.2 = Some (JobStore.MemoryJobStore jobs))
  ∧ (Str.startswith addr "postgresql://" = true
     ∧ store_init (JobStore.SQLAlchemyJobStore addr true) = Ok ()
     ↔ configured_store out.2 = Some (JobStore.SQLAlchemyJobStore addr true))
  ∧ (Str.startswith addr "crate://" = true
     ∧ store_init (JobStore.CrateDBSQLAlchemyJobStore addr true) = Ok ()
     ↔ configured_store out.2
       = Some (JobStore.CrateDBSQLAlchemyJobStore addr true))
  ∧ (accepted store_init addr ↔ out.1 = Ok ())
  ∧ (∀ e, Str.startswith addr "postgresql://" = true →
          store_init (JobStore.SQLAlchemyJobStore addr true) = Raise e →
          out.1 = Raise e ∧ scheduler (self out.2) = None ∧ world out.2 = w)
  ∧ (∀ e, Str.startswith addr "crate://" = true →
          store_init (JobStore.CrateDBSQLAlchemyJobStore addr true) = Raise e →
          out.1 = Raise e ∧ scheduler (self out.2) = None ∧ world out.2 = w)
  ∧ (known_address addr = false →
     out.1 = Raise (RuntimeError
                      ("Initializing job store failed. Unknown address: "
                       +:+ addr))
     ∧ scheduler (self out.2) = None ∧ world out.2 = w).
Proof.
  intros out. unfold out, configured_store, accepted. clear out.
  by_address addr; run_configure.
  - destruct (default false flag); simpl; rewrite ?lookup_insert_eq;
      split_and!; try split; try done; eauto; try (by intros [? ?]).
  - destruct (store_init (JobStore.SQLAlchemyJobStore addr true))
      as [[]|e] eqn:Hi; simpl.
    + destruct (default false flag); simpl;
        try destruct (World.jobs_table w); simpl; rewrite ?lookup_insert_eq;
        split_and!; try split; try done; eauto; try (by intros (? & ?)).
    + split_and!; try split; try done; try (by intros (? & ?));
        try (by intros [?|[[? ?]|[? ?]]]).
  - destruct (store_init (JobStore.CrateDBSQLAlchemyJobStore addr true))
      as [[]|e] eqn:Hi; simpl.
    + destruct (default false flag); simpl;
        try destruct (World.jobs_table w); simpl; rewrite ?lookup_insert_eq;
        split_and!; try split; try done; eauto; try (by intros (? & ?)).
    + split_and!; try split; try done; try (by intros (? & ?));
        try (by intros [?|[[? ?]|[? ?]]]).
  - split_and!; try split; try done; try (by intros (? & ?));
      try (by intros [?|[[? ?]|[? ?]]]).
Qed.

(** C4 fails as stated: an address can start with [postgresql://] and
    still get no SQL store.  When the constructor refuses the address (a
    port that is not a number), [configure] raises its error and no job
    store is configured. *)
Lemma known_prefix_can_be_refused :
  let addr := "postgresql://localhost:notaport/db" in
  let out := init numeric_port addr None (Examples.world_of []) in
  Str.startswith addr "postgresql://" = true
  ∧ out.1 = Raise (ValueError "invalid literal for int() with base 10: 'notaport'")
  ∧ configured_store out.2 = None.
Proof. vm_compute. done. Qed.

Lemma configure_selects_by_prefix_witness :
  let addr := "postgresql://postgres@localhost" in
  (Str.startswith addr "postgresql://" = true
   ∧ numeric_port (JobStore.SQLAlchemyJobStore addr true) = Ok ())
  ∧ configured_store (init numeric_port addr None (Examples.world_of [])).2
    = Some (JobStore.SQLAlchemyJobStore addr true).
Proof.
  intros addr.
  assert (H : Str.startswith addr "postgresql://" = true
              ∧ numeric_port (JobStore.SQLAlchemyJobStore addr true) = Ok ())
    by (split; reflexivity).
  split; [exact H|].
  by apply (configure_selects_by_prefix numeric_port addr None
              (Examples.world_of [])).
Defined.






(** C7, as amended.  A failure of the job store while clearing is not
    fatal: with the flag set, [configure] returns normally and configures
    the scheduler for every address it gets a job store for, also when
    [remove_all_jobs] raised, which it does for a durable store whose jobs
    table cannot be reached; the table is left unreachable. *)
Theorem clearing_failure_is_swallowed (store_init : JobStore.t → result unit)
  (addr : string) (w : World.t) :
  accepted store_init addr →
  let st0 := mkState (mk addr true None) w in
  let out := init store_init addr (Some true) w in
  out.1 = Ok ()
  ∧ is_Some (scheduler (self out.2))
  ∧ (Str.startswith addr "memory://" = false → World.jobs_table w = None →
     ∃ store e,
       configured_store out.2 = Some store
       ∧ (remove_all_jobs store st0).1 = Raise e
       ∧ World.jobs_table (world out.2) = None).
Proof.
  intros Hk st0 out. unfold out, st0, configured_store. clear out st0.
  unfold accepted in Hk. by_address addr; run_configure.
  - by split_and!.
  - destruct Hk as [?|[[_ Hi]|[? _]]]; [done| |done]. rewrite Hi. simpl.
    destruct (World.jobs_table w) eqn:Ht; simpl; rewrite ?lookup_insert_eq;
      split_and!; try done; intros _ _.
    eexists _, _; split_and!; try reflexivity; simpl; by rewrite ?Ht.
  - destruct Hk as [?|[[? _]|[_ Hi]]]; [done|done|]. rewrite Hi. simpl.
    destruct (World.jobs_table w) eqn:Ht; simpl; rewrite ?lookup_insert_eq;
      split_and!; try done; intros _ _.
    eexists _, _; split_and!; try reflexivity; simpl; by rewrite ?Ht.
  - by destruct Hk as [?|[[? _]|[? _]]].
Qed.

Lemma clearing_failure_is_swallowed_witness :
  accepted any_store "crate://localhost"
  ∧ (init any_store "crate://localhost" (Some true) (Examples.world_of [])).1
    = Ok ().
Proof.
  assert (Hacc : accepted any_store "crate://localhost")
    by (right; right; split; reflexivity).
  split; [exact Hacc|].
  by apply (clearing_failure_is_swallowed any_store "crate://localhost"
              (Examples.world_of [])).
Defined.

(** C7 fails as stated: on the address of the main program with the flag
    set and an unreachable jobs table, [remove_all_jobs] raises and
    [configure] still returns normally with the store configured. *)
Lemma clearing_failure_not_fatal :
  let w := Examples.world_of [] in
  let st0 := mkState (mk "crate://localhost" true None) w in
  (remove_all_jobs (JobStore.CrateDBSQLAlchemyJobStore "crate://localhost" true)
     st0).1
  = Raise (OperationalError "jobs table unavailable")
  ∧ (init any_store "crate://localhost" (Some true) w).1 = Ok ()
  ∧ configured_store (init any_store "crate://localhost" (Some true) w).2
    = Some (JobStore.CrateDBSQLAlchemyJobStore "crate://localhost" true).
Proof. vm_compute. done. Qed.


(** Every job construction and seeding leave in the scheduler was queued
    by [seed_jobs] for a definition of the file. *)
Lemma construct_and_seed_jobs (store_init : JobStore.t → result unit)
  (check : CronTrigger.t → result unit) (addr : string)
  (flag : option bool) (w : World.t) (sched : BackgroundScheduler.t) :
  scheduler (self (construct_and_seed store_init check addr flag w).2)
  = Some sched →
  BackgroundScheduler.job_defaults sched = JobDefaults.mk false 1
  ∧ BackgroundScheduler.timezone sched = "Europe/Vienna"
  ∧ Forall (λ j, Job.max_instances j = 4%Z
                 ∧ CronTrigger.timezone (Job.trigger j) = "Europe/Vienna")
      (BackgroundScheduler.get_jobs sched).
Proof.
  intros Hs. destruct (accepted_or_not store_init addr) as [Hk|Hk].
  - destruct (construct_and_seed_accepted store_init check addr flag w Hk)
      as (store & w' & seeded & added & Hrun & _ & Hf).
    rewrite Hrun in Hs. simpl in Hs. injection Hs as <-.
    split_and!; [done..|]. by apply seeds_all in Hf as [Hf _].
  - destruct (construct_and_seed_rejected store_init check addr flag w Hk)
      as [Hrun Hnone].
    rewrite Hrun, Hnone in Hs. discriminate.
Qed.

(** C1, as amended.  Every job seeded from the definition file carries
    the concurrency limit 4, which [seed_jobs] passes to [add_job] for each
    job, in place of the limit 1 of the scheduler's job defaults. *)
Theorem seeded_jobs_max_instances (store_init : JobStore.t → result unit)
  (check : CronTrigger.t → result unit)
  (addr : string) (flag : option bool) (w : World.t)
  (sched : BackgroundScheduler.t) :
  scheduler (self (construct_and_seed store_init check addr flag w).2)
  = Some sched →
  JobDefaults.max_instances (BackgroundScheduler.job_defaults sched) = 1%Z
  ∧ ∀ j, j ∈ BackgroundScheduler.get_jobs sched → Job.max_instances j = 4%Z.
Proof.
  intros Hs. apply construct_and_seed_jobs in Hs as (Hd & _ & Hf).
  split; [by rewrite Hd|].
  intros j Hj. rewrite Forall_forall in Hf. by apply Hf.
Qed.

(** C9.  The scheduler is built with the fixed zone Europe/Vienna, and
    the trigger of every seeded job takes that zone: a job definition has
    no timezone of its own ([CronJob.t] has no such field). *)
Theorem seeded_jobs_timezone (store_init : JobStore.t → result unit)
  (check : CronTrigger.t → result unit)
  (addr : string) (flag : option bool) (w : World.t) :
  let st := (construct_and_seed store_init check addr flag w).2 in
  (accepted store_init addr → is_Some (scheduler (self st)))
  ∧ ∀ sched, scheduler (self st) = Some sched →
      BackgroundScheduler.timezone sched = "Europe/Vienna"
      ∧ ∀ j, j ∈ BackgroundScheduler.get_jobs sched →
          CronTrigger.timezone (Job.trigger j) = "Europe/Vienna".
Proof.
  intros st. split.
  - intros Hk.
    destruct (construct_and_seed_accepted store_init check addr flag w Hk)
      as (store & w' & seeded & added & Hrun & _).
    unfold st. by rewrite Hrun.
  - intros sched Hs. apply construct_and_seed_jobs in Hs as (_ & Htz & Hf).
    split; [done|]. intros j Hj. rewrite Forall_forall in Hf. by apply Hf.
Qed.


Lemma seeded_jobs_max_instances_witness :
  let w := Examples.world_of [Examples.every_five_minutes] in
  let st := (construct_and_seed any_store accept_all "memory://" None w).2 in
  ∃ sched, scheduler (self st) = Some sched
           ∧ BackgroundScheduler.get_jobs sched ≠ []
           ∧ ∀ j, j ∈ BackgroundScheduler.get_jobs sched →
                  Job.max_instances j = 4%Z.
Proof.
  eexists. split; [vm_compute; reflexivity|]. split; [by vm_compute|].
  apply (seeded_jobs_max_instances any_store accept_all "memory://" None
           (Examples.world_of [Examples.every_five_minutes])).
  vm_compute. reflexivity.
Defined.

(** C1 fails as stated: the job seeded for one enabled definition on the
    memory store has the limit 4, not 1. *)
Lemma seeded_job_limit_is_not_one :
  let w := Examples.world_of [Examples.every_five_minutes] in
  let st := (construct_and_seed any_store accept_all "memory://" None w).2 in
  Job.max_instances <$> scheduled_jobs st = [4%Z]
  ∧ ¬ (∀ j, j ∈ scheduled_jobs st → Job.max_instances j = 1%Z).
Proof.
  split; [vm_compute; reflexivity|].
  intros H. specialize (H _ (list_elem_of_here _ _)). vm_compute in H. discriminate.
Qed.

(** C8, as amended.  With a scheduler configured, [seed_jobs] schedules
    enabled definitions only.  In every outcome the jobs it adds are, in
    order, those of an initial part of the enabled definitions, so that a
    disabled definition is never scheduled, and the definitions themselves
    are kept.  When every definition is seedable (disabled, or with five
    fields the trigger accepts), [seed_jobs] returns normally and the jobs
    added are exactly those of the enabled definitions. *)
Theorem seed_jobs_enabled_only (check : CronTrigger.t → result unit)
  (st : State) (sched : BackgroundScheduler.t) :
  scheduler (self st) = Some sched →
  let cronjobs := World.cronjobs (world st) in
  let out := seed_jobs check st in
  World.cronjobs (world out.2) = cronjobs
  ∧ ∃ added,
      scheduled_jobs out.2 = BackgroundScheduler.get_jobs sched ++ added
      ∧ job_key <$> added
        `prefix_of` cronjob_key <$> List.filter CronJob.enabled cronjobs
      ∧ (Forall (seedable check (BackgroundScheduler.timezone sched)) cronjobs →
         out.1 = Ok ()
         ∧ job_key <$> added
           = cronjob_key <$> List.filter CronJob.enabled cronjobs).
Proof.
  intros Hs cronjobs out.
  destruct (for_each_seed check cronjobs st sched Hs)
    as (seeded & added & Hst & Hf & Hpre & Hok & Hall).
  assert (Hout : out = for_each cronjobs (seed_job check) st) by done.
  rewrite Hout. clear Hout out. rewrite Hst. simpl. split; [done|].
  apply seeds_all in Hf as [_ Hkey].
  exists ((λ p, p.1.1) <$> added). unfold scheduled_jobs. simpl.
  split_and!.
  - unfold BackgroundScheduler.get_jobs. simpl. by rewrite fmap_app.
  - rewrite Hkey. destruct Hpre as [rest ->]. rewrite fmap_app. by eexists.
  - intros Hwf. specialize (Hall Hwf). split; [done|].
    by rewrite Hkey, (Hok Hall).
Qed.


Lemma seedable_accept_all (tz : string) (cj : CronJob.t) :
  length (Str.split (CronJob.crontab cj)) = 5 → seedable accept_all tz cj.
Proof.
  intros Hl _.
  destruct (Str.split (CronJob.crontab cj))
    as [|a [|b [|c [|d [|e [|? ?]]]]]]; try done.
  by exists a, b, c, d, e.
Qed.

Lemma seed_jobs_enabled_only_witness :
  let w := Examples.world_of [Examples.every_five_minutes; Examples.noon_disabled] in
  let st := (init any_store "memory://" None w).2 in
  ∃ sched,
    scheduler (self st) = Some sched
    ∧ Forall (seedable accept_all (BackgroundScheduler.timezone sched))
        (World.cronjobs (world st))
    ∧ (seed_jobs accept_all st).1 = Ok ()
    ∧ job_key <$> scheduled_jobs (seed_jobs accept_all st).2 = [("1", ["job1"])].
Proof.
  eexists. split; [vm_compute; reflexivity|].
  assert (Hwf : Forall (seedable accept_all "Europe/Vienna")
                  [Examples.every_five_minutes; Examples.noon_disabled]).
  { repeat constructor; by apply seedable_accept_all. }
  split; [exact Hwf|].
  destruct (seed_jobs_enabled_only accept_all
              (init any_store "memory://" None
                 (Examples.world_of
                    [Examples.every_five_minutes; Examples.noon_disabled])).2
              _ eq_refl)
    as (_ & added & Hjobs & _ & Hall).
  destruct (Hall Hwf) as [Hok Hkeys]. split; [exact Hok|].
  rewrite Hjobs, fmap_app, Hkeys. vm_compute. reflexivity.
Defined.

(** C8 fails as stated: an enabled definition is not always scheduled.
    After a definition with three fields, [seed_jobs] has raised before it
    reaches the enabled definition that follows, and nothing is queued. *)
Lemma enabled_definition_not_scheduled :
  let w := Examples.world_of [Examples.three_fields; Examples.every_five_minutes] in
  let st := (init any_store "memory://" None w).2 in
  World.cronjobs (world st)
  = [Examples.three_fields; Examples.every_five_minutes]
  ∧ CronJob.enabled Examples.every_five_minutes = true
  ∧ is_Some (scheduler (self st))
  ∧ scheduled_jobs (seed_jobs accept_all st).2 = [].
Proof.
  split; [vm_compute; reflexivity|]. split; [reflexivity|].
  split; [by eexists|vm_compute; reflexivity].
Qed.




(** C2, as amended.  The loop of [seed_jobs] does not schedule a
    definition whose crontab has three whitespace-separated fields: when it
    is enabled the unpacking raises [ValueError] before [add_job] is
    called, when it is disabled it is skipped without an error; either way
    the scheduler and the world are left as they were.  The validator
    raises [ValueError] on the three-field text [*/5 * *]. *)
Theorem three_field_crontab_not_seeded (check : CronTrigger.t → result unit)
  (cj : CronJob.t) (st : State) :
  length (Str.split (CronJob.crontab cj)) = 3 →
  seed_job check cj st
  = (if CronJob.enabled cj
     then Raise (ValueError "not enough values to unpack (expected 5, got 3)")
     else Ok (),
     st)
  ∧ Str.split "*/5 * *" = ["*/5"; "*"; "*"]
  ∧ CronJob.validate_crontab "*/5 * *"
    = Raise (ValueError "Invalid crontab syntax").
Proof.
  intros Hlen. split; [|split; vm_compute; reflexivity].
  destruct (CronJob.enabled cj) eqn:Hen.
  - by apply seed_job_unpack_raise, unpack5_three.
  - by apply seed_job_disabled.
Qed.

Lemma three_field_crontab_not_seeded_witness :
  let st := (init any_store "memory://" None
               (Examples.world_of [Examples.three_fields])).2 in
  length (Str.split (CronJob.crontab Examples.three_fields)) = 3
  ∧ seed_job accept_all Examples.three_fields st
    = (Raise (ValueError "not enough values to unpack (expected 5, got 3)"), st).
Proof.
  split; [reflexivity|].
  apply (three_field_crontab_not_seeded accept_all Examples.three_fields).
  reflexivity.
Defined.

(** C2 fails as stated: a three-field crontab does not always fail.
    The validator accepts [11 22 33], and a disabled definition with the
    crontab [*/5 * *] is seeded over without any error. *)
Lemma three_field_crontab_can_pass :
  (Str.split "11 22 33" = ["11"; "22"; "33"]
   ∧ CronJob.validate_crontab "11 22 33" = Ok "11 22 33")
  ∧ (let w := Examples.world_of [Examples.three_fields_disabled] in
     Str.split (CronJob.crontab Examples.three_fields_disabled) = ["*/5"; "*"; "*"]
     ∧ (construct_and_seed any_store accept_all "memory://" None w).1 = Ok ()).
Proof.
  split; [split; vm_compute; reflexivity|].
  intros w. split; vm_compute; reflexivity.
Qed.

Lemma seeded_jobs_timezone_witness :
  let w := Examples.world_of [Examples.every_five_minutes] in
  let st := (construct_and_seed any_store accept_all "memory://" None w).2 in
  accepted any_store "memory://"
  ∧ is_Some (scheduler (self st))
  ∧ (CronTrigger.timezone ∘ Job.trigger) <$> scheduled_jobs st = ["Europe/Vienna"].
Proof.
  assert (Hacc : accepted any_store "memory://") by (by left).
  split; [exact Hacc|].
  split.
  - by apply (seeded_jobs_timezone any_store accept_all "memory://" None
                (Examples.world_of [Examples.every_five_minutes])).
  - vm_compute. reflexivity.
Defined.

(** * Further properties of the code *)

(** ** Splitting into fields *)

Module SplitFacts.
Import Str Shape StrFacts.

Lemma rev_app_rev_app (a b c : string) :
  String.rev_app (String.rev_app a b) c = String.rev_app b (a +:+ c).
Proof.
  revert b c. induction a as [|x a IH]; intros b c; [done|].
  simpl. rewrite IH. by rewrite app_cons.
Qed.

Lemma rev_involutive (w : string) : String.rev (String.rev w) = w.
Proof. unfold String.rev. by rewrite rev_app_rev_app, app_nil_r. Qed.

Lemma no_space_app (a b : string) :
  no_space (a +:+ b) = no_space a && no_space b.
Proof.
  induction a as [|x a IH]; [done|].
  rewrite app_cons. simpl. by rewrite IH, andb_assoc.
Qed.

(** Splitting at a whitespace character. *)
Lemma split_go_app_space (a b : string) (c : ascii) (cur : option string) :
  is_space c = true →
  split_go cur (a +:+ String c b) = split_go cur a ++ split_go None b.
Proof.
  intros Hc. revert cur. induction a as [|x a IH]; intros cur.
  - rewrite app_nil_l. simpl. by rewrite Hc.
  - rewrite app_cons. simpl. destruct (is_space x).
    + by rewrite IH, List.app_assoc.
    + apply IH.
Qed.

Lemma split_go_word (w : string) (cur : option string) :
  word w →
  split_go cur w = [String.rev (String.rev_app w (default "" cur))].
Proof.
  intros [Hne Hw]. revert cur Hne Hw.
  induction w as [|x w IH]; intros cur Hne Hw; [done|].
  simpl in *. apply andb_true_iff in Hw as [Hx Hw].
  apply negb_true_iff in Hx. rewrite Hx.
  destruct w as [|y w]; [done|]. by rewrite IH.
Qed.

Lemma split_go_all_space (sp : string) (cur : option string) :
  all_space sp = true → split_go cur sp = option_list (String.rev <$> cur).
Proof.
  revert cur. induction sp as [|c sp IH]; intros cur Hsp; [done|].
  simpl in *. apply andb_true_iff in Hsp as [-> Hsp].
  rewrite IH by done. simpl. by rewrite List.app_nil_r.
Qed.

Lemma split_app_space (a b : string) (c : ascii) :
  is_space c = true → split (a +:+ String c b) = split a ++ split b.
Proof. apply split_go_app_space. Qed.

Lemma split_word (w : string) : word w → split w = [w].
Proof.
  intros Hw. unfold split. rewrite split_go_word by done.
  change (String.rev_app w (default "" None)) with (String.rev w).
  by rewrite rev_involutive.
Qed.

Lemma split_all_space (sp : string) : all_space sp = true → split sp = [].
Proof. intros Hsp. unfold split. by rewrite split_go_all_space. Qed.

(** A word followed by a separator and more text. *)
Lemma split_word_separator (w sep rest : string) :
  word w → separator sep →
  split (w +:+ sep +:+ rest) = w :: split rest.
Proof.
  intros Hw [Hne Hsep]. destruct sep as [|c sep]; [done|].
  simpl in Hsep. apply andb_true_iff in Hsep as [Hc Hsep].
  rewrite app_cons, split_app_space, split_word by done. simpl. f_equal.
  clear Hne Hc. induction sep as [|d sep IH]; [done|].
  simpl in Hsep. apply andb_true_iff in Hsep as [Hd Hsep].
  rewrite app_cons. rewrite <- (app_nil_l (String d _)).
  rewrite split_app_space by done. by rewrite IH.
Qed.

Lemma split_padding_l (pad rest : string) :
  all_space pad = true → split (pad +:+ rest) = split rest.
Proof.
  intros Hp. induction pad as [|d pad IH]; [done|].
  simpl in Hp. apply andb_true_iff in Hp as [Hd Hp].
  rewrite app_cons. rewrite <- (app_nil_l (String d _)).
  rewrite split_app_space by done. by rewrite IH.
Qed.

Lemma split_word_padding (w pad : string) :
  word w → all_space pad = true → split (w +:+ pad) = [w].
Proof.
  intros Hw Hp. destruct pad as [|c pad]; [by rewrite app_nil_r, split_word|].
  simpl in Hp. apply andb_true_iff in Hp as [Hc Hp].
  by rewrite split_app_space, split_word, split_all_space.
Qed.

End SplitFacts.

(** ** Words of the pattern *)

Module LangFacts.
Import Re Shape StrFacts SplitFacts ReFacts.

Lemma lang_min_len (r : regex) (p : string) :
  lang r p → (min_len r ≤ String.length p)%nat.
Proof.
  induction 1 as [c|c Hc|r1 r2 p1 p2 _ IH1 _ IH2|r1 r2 p _ IH|r1 r2 p _ IH
                 |r p _ IH|r p1 p2 _ IH1 _ IH2|r|r p _ IH|hi r
                 |lo hi r p1 p2 _ IH1 _ IH2]; simpl in *;
    rewrite ?length_app; try lia.
  destruct lo; simpl in *; lia.
Qed.

Lemma digit_not_space (c : ascii) : is_digit c = true → Str.is_space c = false.
Proof. by destruct c as [[] [] [] [] [] [] [] []]. Qed.

Lemma lang_no_space (r : regex) (p : string) :
  spaceless r = true → lang r p → no_space p = true.
Proof.
  intros Hr Hl. revert Hr.
  induction Hl as [c|c Hc|r1 r2 p1 p2 _ IH1 _ IH2|r1 r2 p _ IH|r1 r2 p _ IH
                 |r p _ IH|r p1 p2 _ IH1 _ IH2|r|r p _ IH|hi r
                 |lo hi r p1 p2 _ IH1 _ IH2]; simpl; intros Hr;
    rewrite ?no_space_app; try (apply andb_true_iff in Hr as [Hr1 Hr2]);
    rewrite ?andb_true_r; auto.
  - by rewrite digit_not_space.
  - by rewrite IH1, IH2.
  - by rewrite IH1, IH2.
  - by rewrite IH1, IH2.
Qed.

(** Only the first [lo] repetitions matter for a prefix. *)
Lemma lang_repeat_prefix (r0 : regex) (p : string) :
  lang r0 p → ∀ lo hi r, r0 = Repeat lo hi r →
  ∃ p1 p2, p = p1 +:+ p2 ∧ lang (Repeat lo lo r) p1.
Proof.
  induction 1 as [c|c Hc|r1 r2 p1 p2 _ IH1 _ IH2|r1 r2 p _ IH|r1 r2 p _ IH
                 |r p _ IH|r p1 p2 _ IH1 _ IH2|r|r p _ IH|hi r
                 |lo hi r p1 p2 H1 _ _ IH2]; intros lo' hi' r' Heq; try done.
  - injection Heq as <- <- <-. exists "", "". split; [done|apply lang_rep_stop].
  - injection Heq as <- <- <-.
    destruct (IH2 _ _ _ eq_refl) as (a & b & -> & Ha).
    destruct lo as [|lo].
    + exists "", (p1 +:+ a +:+ b). split; [done|apply lang_rep_stop].
    + exists (p1 +:+ a), b. split; [by rewrite app_assoc|].
      by apply (lang_rep_step (S lo) lo).
Qed.

Lemma lang_repeat_mono (r0 : regex) (p : string) :
  lang r0 p → ∀ lo hi hi' r, r0 = Repeat lo hi r → (hi ≤ hi')%nat →
  lang (Repeat lo hi' r) p.
Proof.
  induction 1 as [c|c Hc|r1 r2 p1 p2 _ IH1 _ IH2|r1 r2 p _ IH|r1 r2 p _ IH
                 |r p _ IH|r p1 p2 _ IH1 _ IH2|r|r p _ IH|hi r
                 |lo hi r p1 p2 H1 _ _ IH2]; intros lo' hi0 hi' r' Heq Hle; try done.
  - injection Heq as <- <- <-. apply lang_rep_stop.
  - injection Heq as <- <- <-. destruct hi' as [|hi']; [lia|].
    apply lang_rep_step; [done|]. eapply IH2; [done|lia].
Qed.

End LangFacts.

(** ** More on [configure] and the seeding loop *)

Module SeedingFacts.
Import Supertask Obs SupertaskFacts.

Lemma known_address_spec (addr : string) :
  known_address addr = true
  ↔ ∃ rest, addr = "memory://" +:+ rest ∨ addr = "postgresql://" +:+ rest
            ∨ addr = "crate://" +:+ rest.
Proof.
  unfold known_address. rewrite !orb_true_iff, !StrFacts.startswith_spec.
  split.
  - intros [[[t ->]|[t ->]]|[t ->]]; exists t; auto.
  - intros [t [->| [->| ->]]]; eauto.
Qed.

Lemma accepted_spec (store_init : JobStore.t → result unit) (addr : string) :
  accepted store_init addr
  ↔ (∃ rest, addr = "memory://" +:+ rest)
    ∨ ((∃ rest, addr = "postgresql://" +:+ rest)
       ∧ store_init (JobStore.SQLAlchemyJobStore addr true) = Ok ())
    ∨ ((∃ rest, addr = "crate://" +:+ rest)
       ∧ store_init (JobStore.CrateDBSQLAlchemyJobStore addr true) = Ok ()).
Proof. unfold accepted. by rewrite !StrFacts.startswith_spec. Qed.

(** [configure] does not read the scheduler it replaces. *)
Lemma configure_forgets (store_init : JobStore.t → result unit) (st : State) :
  accepted store_init (job_store_address (self st)) →
  configure store_init st
  = configure store_init
      (mkState (mk (job_store_address (self st))
                   (pre_delete_jobs (self st)) None)
               (world st)).
Proof.
  intros Hk. destruct st as [[addr flag sched] w]. simpl in *.
  unfold accepted in Hk. by_address addr; run_configure.
  - destruct flag; simpl; done.
  - destruct Hk as [?|[[_ Hi]|[? _]]]; [done| |done]. rewrite Hi. simpl.
    destruct flag; simpl; try done. by destruct (World.jobs_table w).
  - destruct Hk as [?|[[? _]|[_ Hi]]]; [done|done|]. rewrite Hi. simpl.
    destruct flag; simpl; try done. by destruct (World.jobs_table w).
  - by destruct Hk as [?|[[? _]|[? _]]].
Qed.

(** On an address that is not accepted, [configure] raises and leaves the
    state as it was. *)
Lemma configure_rejected (store_init : JobStore.t → result unit) (st : State) :
  ¬ accepted store_init (job_store_address (self st)) →
  ∃ e, configure store_init st = (Raise e, st).
Proof.
  intros Hk. destruct st as [[addr flag sched] w]. simpl in *.
  unfold accepted in Hk. by_address addr; run_configure.
  - exfalso. apply Hk. by left.
  - destruct (store_init (JobStore.SQLAlchemyJobStore addr true))
      as [[]|e] eqn:Hi; simpl; [|eauto].
    exfalso. apply Hk. right. left. by split.
  - destruct (store_init (JobStore.CrateDBSQLAlchemyJobStore addr true))
      as [[]|e] eqn:Hi; simpl; [|eauto].
    exfalso. apply Hk. right. right. by split.
  - eauto.
Qed.

Section Loop.
Variable check : CronTrigger.t → result unit.

Lemma seed_job_no_scheduler (cj : CronJob.t) (st : State) :
  scheduler (self st) = None → (seed_job check cj st).2 = st.
Proof.
  intros Hs. unfold seed_job. destruct (CronJob.enabled cj); [|done].
  unfold_M. destruct (unpack5 _) as [[[[[a b] c] d] e]|err]; [|done].
  simpl. by rewrite Hs.
Qed.

Lemma for_each_no_scheduler (l : list CronJob.t) (st : State) :
  scheduler (self st) = None → (for_each l (seed_job check) st).2 = st.
Proof.
  intros Hs. induction l as [|cj l IH]; [done|].
  simpl. unfold mbind, M_bind.
  pose proof (seed_job_no_scheduler cj st Hs) as Hj.
  destruct (seed_job check cj st) as [[[]|e] st1]; simpl in Hj; by subst.
Qed.

(** When the loop completes, every definition was seedable. *)
Lemma for_each_seed_ok (l : list CronJob.t) (st : State)
  (sched : BackgroundScheduler.t) :
  scheduler (self st) = Some sched →
  (for_each l (seed_job check) st).1 = Ok () →
  Forall (seedable check (BackgroundScheduler.timezone sched)) l.
Proof.
  revert st sched. induction l as [|cj l IH]; intros st sched Hs Hok;
    [constructor|].
  simpl in Hok. destruct (CronJob.enabled cj) eqn:Hen.
  - destruct (unpack5 (Str.split (CronJob.crontab cj)))
      as [[[[[a b] c] d] e]|err] eqn:Hu.
    + apply unpack5_Ok in Hu.
      destruct (check (CronTrigger.mk a b c d e
                         (BackgroundScheduler.timezone sched)))
        as [[]|err] eqn:Hc.
      * erewrite bind_ok in Hok by (by eapply seed_job_ok).
        constructor; [intros _; by exists a, b, c, d, e|].
        match type of Hok with
        | context [for_each l _ ?s] => exact (IH s _ eq_refl Hok)
        end.
      * erewrite bind_raise in Hok by (by eapply seed_job_check_raise).
        discriminate.
    + erewrite bind_raise in Hok by (by eapply seed_job_unpack_raise).
      discriminate.
  - erewrite bind_ok in Hok by (by eapply seed_job_disabled).
    constructor; [intros ?; congruence|]. by eapply IH.
Qed.
End Loop.

(** The entry queued for a definition is determined by the definition. *)
Lemma seeds_functional (tz : string) (d : JobDefaults.t)
  (l : list CronJob.t) (a1 a2 : list (Job.t * string * bool)) :
  Forall2 (seeds tz d) l a1 → Forall2 (seeds tz d) l a2 → a1 = a2.
Proof.
  intros H1. revert a2. induction H1 as [|c e1 l a1 Hc _ IH]; intros a2 H2.
  - by inversion H2.
  - inversion H2 as [|? e2 ? a2' Hc2 H2']; subst. f_equal; [|by apply IH].
    destruct Hc as (m & h & dd & mo & dw & Hs & ->).
    destruct Hc2 as (m' & h' & dd' & mo' & dw' & Hs' & ->).
    rewrite Hs in Hs'. by injection Hs' as <- <- <- <- <-.
Qed.

Lemma seeds_ids (tz : string) (d : JobDefaults.t) (seeded : list CronJob.t)
  (added : list (Job.t * string * bool)) :
  Forall2 (seeds tz d) seeded added →
  Job.id <$> ((λ p, p.1.1) <$> added)
  = (λ c, pretty (CronJob.id c)) <$> seeded.
Proof.
  induction 1 as [|c e seeded added Hc _ IH]; [done|].
  destruct Hc as (m & h & dd & mo & dw & _ & ->).
  rewrite !fmap_cons. simpl. by f_equal.
Qed.

End SeedingFacts.

Import SeedingFacts.

(** X1.  [validate_crontab] returns its argument or raises
    [ValueError("Invalid crontab syntax")], and the upper bound of the
    repetition has no effect: the text is accepted exactly when the
    pattern with any bound of at least five, five itself included, matches
    a prefix of it. *)
Theorem validate_crontab_five_repetitions (v : string) (hi : nat) :
  (5 ≤ hi)%nat →
  (CronJob.validate_crontab v = Ok v
   ∨ CronJob.validate_crontab v = Raise (ValueError "Invalid crontab syntax"))
  ∧ (CronJob.validate_crontab v = Ok v
     ↔ is_Some (Re.re_match
                  (Re.Repeat 5 hi (Re.Cat CronJob.field (Re.Opt (Re.Lit " "))))
                  v)).
Proof.
  intros Hhi. destruct (CronJobFacts.validate_crontab_spec v) as [Hiff Hcases].
  split; [exact Hcases|]. rewrite Hiff, ReFacts.re_match_spec.
  split; intros (p & t & Hp & ->).
  - destruct (LangFacts.lang_repeat_prefix _ _ Hp _ _ _ eq_refl)
      as (p1 & p2 & -> & Hp1).
    exists p1, (p2 +:+ t). split; [|by rewrite StrFacts.app_assoc].
    by eapply LangFacts.lang_repeat_mono.
  - destruct (LangFacts.lang_repeat_prefix _ _ Hp _ _ _ eq_refl)
      as (p1 & p2 & -> & Hp1).
    exists p1, (p2 +:+ t). split; [|by rewrite StrFacts.app_assoc].
    eapply LangFacts.lang_repeat_mono; [exact Hp1|reflexivity|lia].
Qed.

Lemma validate_crontab_five_repetitions_witness :
  (5 ≤ 5)%nat
  ∧ (CronJob.validate_crontab "1 2 3 4 5 6 7 8 9" = Ok "1 2 3 4 5 6 7 8 9"
     ↔ is_Some (Re.re_match
                  (Re.Repeat 5 5 (Re.Cat CronJob.field (Re.Opt (Re.Lit " "))))
                  "1 2 3 4 5 6 7 8 9")).
Proof.
  split; [lia|].
  apply (validate_crontab_five_repetitions "1 2 3 4 5 6 7 8 9" 5). lia.
Defined.

(** X2.  What follows an accepted text is not looked at: a text that
    [validate_crontab] accepts is still accepted with anything appended. *)
Theorem validate_crontab_ignores_what_follows (v t : string) :
  CronJob.validate_crontab v = Ok v →
  CronJob.validate_crontab (v +:+ t) = Ok (v +:+ t).
Proof.
  intros Hv. apply CronJobFacts.validate_crontab_spec.
  apply CronJobFacts.validate_crontab_spec in Hv as (p & u & Hp & ->).
  exists p, (u +:+ t). split; [done|]. by rewrite StrFacts.app_assoc.
Qed.

Lemma validate_crontab_ignores_what_follows_witness :
  CronJob.validate_crontab "0 12 * * 1-5" = Ok "0 12 * * 1-5"
  ∧ CronJob.validate_crontab ("0 12 * * 1-5" +:+ "; rm -rf /")
    = Ok ("0 12 * * 1-5" +:+ "; rm -rf /").
Proof.
  split; [vm_compute; reflexivity|].
  apply (validate_crontab_ignores_what_follows "0 12 * * 1-5" "; rm -rf /").
  vm_compute. reflexivity.
Defined.

(** X3.  A text that [validate_crontab] accepts has at least five
    characters and starts with a digit or a star; so the empty text, a
    short one, or one that starts with a blank is rejected. *)
Theorem validate_crontab_accepted_shape (v : string) :
  CronJob.validate_crontab v = Ok v →
  (5 ≤ String.length v)%nat
  ∧ ∃ c rest, v = String c rest ∧ (Re.is_digit c = true ∨ c = "*"%char).
Proof.
  intros Hv.
  assert (Hlen : (5 ≤ String.length v)%nat).
  { apply CronJobFacts.validate_crontab_spec in Hv as (p & t & Hp & ->).
    apply LangFacts.lang_min_len in Hp. rewrite StrFacts.length_app.
    change (Shape.min_len CronJob.pattern) with 5%nat in Hp. lia. }
  split; [exact Hlen|].
  destruct v as [|c rest]; [simpl in Hlen; lia|].
  exists c, rest. split; [done|].
  destruct (Re.is_digit c) eqn:Hd; [by left|]. right.
  destruct (decide (c = "*"%char)) as [|Hne]; [done|]. exfalso.
  unfold CronJob.validate_crontab, Re.re_match in Hv.
  assert (He : Re.ends CronJob.pattern (String c rest) = []).
  { unfold CronJob.pattern, CronJob.field. simpl. rewrite Hd. simpl.
    by rewrite decide_False. }
  rewrite He in Hv. discriminate.
Qed.

Lemma validate_crontab_accepted_shape_witness :
  CronJob.validate_crontab "12345" = Ok "12345"
  ∧ (5 ≤ String.length "12345")%nat.
Proof.
  split; [vm_compute; reflexivity|].
  apply (validate_crontab_accepted_shape "12345"). vm_compute. reflexivity.
Defined.

(** X4.  The unpacking in [seed_jobs] tolerates any whitespace around and
    between the fields: five words separated by non-empty runs of
    whitespace, with optional whitespace before and after, unpack into
    exactly those five words, in order. *)
Theorem unpack_tolerates_whitespace
  (f1 f2 f3 f4 f5 s1 s2 s3 s4 lead trail : string) :
  Shape.word f1 → Shape.word f2 → Shape.word f3 → Shape.word f4 →
  Shape.word f5 →
  Shape.separator s1 → Shape.separator s2 → Shape.separator s3 →
  Shape.separator s4 →
  Shape.all_space lead = true → Shape.all_space trail = true →
  unpack5 (Str.split (lead +:+ f1 +:+ s1 +:+ f2 +:+ s2 +:+ f3 +:+ s3 +:+ f4
                      +:+ s4 +:+ f5 +:+ trail))
  = Ok (f1, f2, f3, f4, f5).
Proof.
  intros H1 H2 H3 H4 H5 Hs1 Hs2 Hs3 Hs4 Hl Ht.
  rewrite SplitFacts.split_padding_l by done.
  rewrite !SplitFacts.split_word_separator by done.
  by rewrite SplitFacts.split_word_padding.
Qed.

Lemma unpack_tolerates_whitespace_witness :
  (Shape.word "*/5" ∧ Shape.word "*" ∧ Shape.separator " "
   ∧ Shape.separator "  " ∧ Shape.all_space " " = true)
  ∧ unpack5 (Str.split (" " +:+ "*/5" +:+ "  " +:+ "*" +:+ " " +:+ "*" +:+ " "
                        +:+ "*" +:+ "  " +:+ "*" +:+ " "))
    = Ok ("*/5", "*", "*", "*", "*").
Proof.
  split; [by repeat split|].
  by apply (unpack_tolerates_whitespace "*/5" "*" "*" "*" "*"
              "  " " " " " "  " " " " ").
Defined.

Lemma lang_field_word (f : string) : Re.lang CronJob.field f → Shape.word f.
Proof.
  intros Hf. split.
  - apply LangFacts.lang_min_len in Hf.
    change (Shape.min_len CronJob.field) with 1%nat in Hf.
    destruct f; [simpl in Hf; lia|done].
  - by apply (LangFacts.lang_no_space CronJob.field).
Qed.

(** X5.  On five fields of the validator's field syntax separated by
    single spaces, the validator and the seeding agree: [validate_crontab]
    accepts the text, and [seed_jobs] unpacks it into those five fields. *)
Theorem valid_fields_validate_and_unpack (f1 f2 f3 f4 f5 : string) :
  Re.lang CronJob.field f1 → Re.lang CronJob.field f2 →
  Re.lang CronJob.field f3 → Re.lang CronJob.field f4 →
  Re.lang CronJob.field f5 →
  let v := f1 +:+ " " +:+ f2 +:+ " " +:+ f3 +:+ " " +:+ f4 +:+ " " +:+ f5 in
  CronJob.validate_crontab v = Ok v
  ∧ unpack5 (Str.split v) = Ok (f1, f2, f3, f4, f5).
Proof.
  intros H1 H2 H3 H4 H5 v. split.
  - apply CronJobFacts.validate_crontab_spec. exists v, "".
    split; [by apply CronJobFacts.lang_pattern_five|].
    by rewrite StrFacts.app_nil_r.
  - unfold v.
    rewrite !SplitFacts.split_word_separator
      by (by apply lang_field_word || by split).
    by rewrite SplitFacts.split_word by (by apply lang_field_word).
Qed.

Lemma valid_fields_validate_and_unpack_witness :
  (Re.lang CronJob.field "0" ∧ Re.lang CronJob.field "1"
   ∧ Re.lang CronJob.field "2" ∧ Re.lang CronJob.field "3"
   ∧ Re.lang CronJob.field "*")
  ∧ CronJob.validate_crontab "0 1 2 3 *" = Ok "0 1 2 3 *"
  ∧ unpack5 (Str.split "0 1 2 3 *") = Ok ("0", "1", "2", "3", "*").
Proof.
  assert (Hstar : Re.lang CronJob.field "*").
  { apply Re.lang_alt_r, Re.lang_alt_r, Re.lang_alt_r, Re.lang_lit. }
  split; [split_and!; try (by apply lang_field_digit); exact Hstar|].
  apply (valid_fields_validate_and_unpack "0" "1" "2" "3" "*");
    try (by apply lang_field_digit); exact Hstar.
Defined.

(** X6.  [configure] returns normally exactly for a memory address, that
    is [memory://] followed by any text, and for a durable address,
    [postgresql://] or [crate://] followed by any text, that the
    constructor of its job store takes. *)
Theorem configure_accepts_scheme_prefixes (store_init : JobStore.t → result unit)
  (addr : string) (flag : option bool) (w : World.t) :
  (init store_init addr flag w).1 = Ok ()
  ↔ (∃ rest, addr = "memory://" +:+ rest)
    ∨ ((∃ rest, addr = "postgresql://" +:+ rest)
       ∧ store_init (JobStore.SQLAlchemyJobStore addr true) = Ok ())
    ∨ ((∃ rest, addr = "crate://" +:+ rest)
       ∧ store_init (JobStore.CrateDBSQLAlchemyJobStore addr true) = Ok ()).
Proof.
  rewrite <- accepted_spec.
  destruct (accepted_or_not store_init addr) as [Hk|Hk].
  - destruct (init_accepted store_init addr flag w Hk) as (store & w' & -> & _).
    done.
  - destruct (init_rejected store_init addr flag w Hk) as [e ->]. done.
Qed.

(** X7.  When [configure] returns normally it did not look at the
    scheduler it replaces: it behaves as the constructor does on the same
    address, flag and world, and the jobs queued before are gone.  When it
    raises, the state, and with it the old scheduler and its queue, is
    left as it was. *)
Theorem configure_drops_queued_jobs (store_init : JobStore.t → result unit)
  (st : State) :
  let out := configure store_init st in
  (out.1 = Ok () →
   out = init store_init (job_store_address (self st))
           (Some (pre_delete_jobs (self st))) (world st)
   ∧ scheduled_jobs out.2 = [])
  ∧ (out.1 ≠ Ok () → out.2 = st).
Proof.
  intros out. unfold out. clear out.
  destruct (accepted_or_not store_init (job_store_address (self st))) as [Hk|Hk].
  - rewrite (configure_forgets store_init st Hk).
    destruct (init_accepted store_init (job_store_address (self st))
                (Some (pre_delete_jobs (self st))) (world st) Hk)
      as (store & w' & Hi & _).
    unfold init in Hi. simpl in Hi. rewrite Hi. simpl. split; [|done].
    intros _. split; [|done]. unfold init. simpl. by rewrite Hi.
  - destruct (configure_rejected store_init st Hk) as [e ->]. simpl.
    split; [done|done].
Qed.

Lemma configure_drops_queued_jobs_witness :
  let w := Examples.world_of [Examples.every_five_minutes] in
  let st := (construct_and_seed any_store accept_all "memory://" None w).2 in
  (configure any_store st).1 = Ok ()
  ∧ scheduled_jobs st ≠ []
  ∧ scheduled_jobs (configure any_store st).2 = [].
Proof.
  split; [vm_compute; reflexivity|]. split; [by vm_compute|].
  apply (configure_drops_queued_jobs any_store
           (construct_and_seed any_store accept_all "memory://" None
              (Examples.world_of [Examples.every_five_minutes])).2).
  vm_compute. reflexivity.
Defined.

(** X8.  Whatever its outcome, [configure] keeps the address, the flag
    and the job definitions; it leaves the jobs table as it was or empties
    it, the latter only with the flag set and an address that is not a
    memory address; with the flag false it leaves the world untouched. *)
Theorem configure_preserves (store_init : JobStore.t → result unit)
  (st : State) :
  let out := configure store_init st in
  job_store_address (self out.2) = job_store_address (self st)
  ∧ pre_delete_jobs (self out.2) = pre_delete_jobs (self st)
  ∧ World.cronjobs (world out.2) = World.cronjobs (world st)
  ∧ (World.jobs_table (world out.2) = World.jobs_table (world st)
     ∨ World.jobs_table (world out.2) = Some ∅
       ∧ pre_delete_jobs (self st) = true
       ∧ Str.startswith (job_store_address (self st)) "memory://" = false)
  ∧ (pre_delete_jobs (self st) = false → world out.2 = world st).
Proof.
  destruct st as [[addr flag sched] w]. simpl.
  by_address addr; run_configure.
  2: destruct (store_init (JobStore.SQLAlchemyJobStore addr true))
       as [[]|e]; simpl.
  4: destruct (store_init (JobStore.CrateDBSQLAlchemyJobStore addr true))
       as [[]|e]; simpl.
  all: destruct flag; simpl; try destruct (World.jobs_table w) eqn:Ht; simpl;
    rewrite ?Ht; split_and!; auto.
  all: try (by destruct w).
Qed.

(** X9.  Whatever its outcome, [seed_jobs] leaves the world (the job
    store and the definitions), the address and the flag untouched.
    Without a scheduler the state is unchanged; with a scheduler, its
    executors, job defaults, job stores and timezone are kept and the
    queue only grows at its end. *)
Theorem seed_jobs_preserves (check : CronTrigger.t → result unit) (st : State) :
  let out := seed_jobs check st in
  world out.2 = world st
  ∧ job_store_address (self out.2) = job_store_address (self st)
  ∧ pre_delete_jobs (self out.2) = pre_delete_jobs (self st)
  ∧ match scheduler (self st) with
    | None => out.2 = st
    | Some sched =>
        ∃ sched',
          scheduler (self out.2) = Some sched'
          ∧ BackgroundScheduler.executors sched'
            = BackgroundScheduler.executors sched
          ∧ BackgroundScheduler.job_defaults sched'
            = BackgroundScheduler.job_defaults sched
          ∧ BackgroundScheduler.jobstores sched'
            = BackgroundScheduler.jobstores sched
          ∧ BackgroundScheduler.timezone sched'
            = BackgroundScheduler.timezone sched
          ∧ BackgroundScheduler.pending_jobs sched
            `prefix_of` BackgroundScheduler.pending_jobs sched'
    end.
Proof.
  intros out.
  assert (Hout : out = for_each (World.cronjobs (world st)) (seed_job check) st)
    by done.
  destruct (scheduler (self st)) as [sched|] eqn:Hs.
  - destruct (for_each_seed check (World.cronjobs (world st)) st sched Hs)
      as (seeded & added & Hst & _).
    rewrite Hout, Hst. simpl. split_and!; try done.
    eexists. split_and!; try done. simpl. by eexists.
  - rewrite Hout, (for_each_no_scheduler check _ st Hs). done.
Qed.

(** X10.  With a scheduler configured, [seed_jobs] returns normally
    exactly when every definition is disabled or has a crontab of five
    fields that the cron trigger accepts. *)
Theorem seed_jobs_succeeds_iff (check : CronTrigger.t → result unit)
  (st : State) (sched : BackgroundScheduler.t) :
  scheduler (self st) = Some sched →
  (seed_jobs check st).1 = Ok ()
  ↔ Forall (seedable check (BackgroundScheduler.timezone sched))
      (World.cronjobs (world st)).
Proof.
  intros Hs.
  change (seed_jobs check st)
    with (for_each (World.cronjobs (world st)) (seed_job check) st).
  split.
  - by apply for_each_seed_ok.
  - destruct (for_each_seed check (World.cronjobs (world st)) st sched Hs)
      as (seeded & added & _ & _ & _ & _ & Hall). exact Hall.
Qed.

Lemma seed_jobs_succeeds_iff_witness :
  let w := Examples.world_of [Examples.every_five_minutes; Examples.three_fields] in
  let st := (init any_store "memory://" None w).2 in
  ∃ sched,
    scheduler (self st) = Some sched
    ∧ (seed_jobs accept_all st).1 ≠ Ok ()
    ∧ ¬ Forall (seedable accept_all (BackgroundScheduler.timezone sched))
          (World.cronjobs (world st)).
Proof.
  eexists. split; [vm_compute; reflexivity|]. split; [by vm_compute|].
  intros H.
  apply (seed_jobs_succeeds_iff accept_all
           (init any_store "memory://" None
              (Examples.world_of
                 [Examples.every_five_minutes; Examples.three_fields])).2
           _ eq_refl) in H.
  vm_compute in H. discriminate.
Defined.

Lemma configure_preserves_witness :
  let w := World.mk (Some {["7" := make_job "Europe/Vienna" (JobDefaults.mk false 1)
                                     "my_job" "0" "12" "*" "*" "*" "7" ["old"] None]})
             [] [Examples.every_five_minutes] in
  let st := mkState (mk "memory://" true None) w in
  World.jobs_table (world (configure any_store st).2) = World.jobs_table w.
Proof.
  intros w st.
  destruct (configure_preserves any_store st) as (_ & _ & _ & [H|(_ & _ & H)] & _);
    [exact H|discriminate H].
Defined.

(** X11.  Every entry [seed_jobs] queues comes from an enabled definition
    of the file: its id is the definition's id as text, its argument the
    definition's job, its trigger the five fields of the crontab in the
    order minute, hour, day, month, day of week, in the scheduler's
    timezone and accepted by the trigger; it is queued for the job store
    [default], without replacing, with the limit 4. *)
Theorem seeded_entries_come_from_definitions
  (check : CronTrigger.t → result unit) (st : State)
  (sched : BackgroundScheduler.t) :
  scheduler (self st) = Some sched →
  ∃ sched' added,
    scheduler (self (seed_jobs check st).2) = Some sched'
    ∧ BackgroundScheduler.pending_jobs sched'
      = BackgroundScheduler.pending_jobs sched ++ added
    ∧ ∀ entry, entry ∈ added →
        ∃ c minute hour day month day_of_week,
          c ∈ World.cronjobs (world st)
          ∧ CronJob.enabled c = true
          ∧ Str.split (CronJob.crontab c)
            = [minute; hour; day; month; day_of_week]
          ∧ check (CronTrigger.mk minute hour day month day_of_week
                     (BackgroundScheduler.timezone sched)) = Ok ()
          ∧ entry
            = (Job.mk (pretty (CronJob.id c)) "my_job"
                 (CronTrigger.mk minute hour day month day_of_week
                    (BackgroundScheduler.timezone sched))
                 [CronJob.job c] "default"
                 (JobDefaults.coalesce (BackgroundScheduler.job_defaults sched))
                 4,
               "default", false).
Proof.
  intros Hs.
  change (seed_jobs check st)
    with (for_each (World.cronjobs (world st)) (seed_job check) st).
  generalize (World.cronjobs (world st)) as l. intros l.
  revert st sched Hs. induction l as [|cj l IH]; intros st sched Hs.
  - exists sched, []. simpl. rewrite app_nil_r. split_and!; [done..|].
    intros entry Hin. by apply elem_of_nil in Hin.
  - simpl. destruct (CronJob.enabled cj) eqn:Hen.
    + destruct (unpack5 (Str.split (CronJob.crontab cj)))
        as [[[[[a b] c] d] e]|err] eqn:Hu.
      * apply unpack5_Ok in Hu.
        destruct (check (CronTrigger.mk a b c d e
                           (BackgroundScheduler.timezone sched)))
          as [[]|err] eqn:Hc.
        -- erewrite bind_ok by (by eapply seed_job_ok).
           match goal with
           | |- context [for_each l _ ?s] =>
               destruct (IH s _ eq_refl) as (sched' & added & Hs' & Hp & Hall)
           end.
           eexists sched', (_ :: added). split_and!; [exact Hs'| |].
           ++ rewrite Hp. simpl. by rewrite <- app_assoc.
           ++ intros entry [->|Hin]%elem_of_cons.
              ** exists cj, a, b, c, d, e. split_and!; try done. left.
              ** destruct (Hall entry Hin)
                   as (c' & m & h & dd & mo & dw & Hc' & Hrest).
                 exists c', m, h, dd, mo, dw. split; [by right|exact Hrest].
        -- erewrite bind_raise by (by eapply seed_job_check_raise).
           exists sched, []. simpl. rewrite app_nil_r. split_and!; [done..|].
           intros entry Hin. by apply elem_of_nil in Hin.
      * erewrite bind_raise by (by eapply seed_job_unpack_raise).
        exists sched, []. simpl. rewrite app_nil_r. split_and!; [done..|].
        intros entry Hin. by apply elem_of_nil in Hin.
    + erewrite bind_ok by (by eapply seed_job_disabled).
      destruct (IH st sched Hs) as (sched' & added & Hs' & Hp & Hall).
      exists sched', added. split_and!; [done..|].
      intros entry Hin.
      destruct (Hall entry Hin) as (c' & m & h & dd & mo & dw & Hc' & Hrest).
      exists c', m, h, dd, mo, dw. split; [by right|exact Hrest].
Qed.

Lemma seeded_entries_come_from_definitions_witness :
  let w := Examples.world_of [Examples.every_five_minutes; Examples.noon_disabled] in
  let st := (init any_store "memory://" None w).2 in
  ∃ sched,
    scheduler (self st) = Some sched
    ∧ ∃ sched' added,
        scheduler (self (seed_jobs accept_all st).2) = Some sched'
        ∧ BackgroundScheduler.pending_jobs sched'
          = BackgroundScheduler.pending_jobs sched ++ added.
Proof.
  eexists. split; [vm_compute; reflexivity|].
  destruct (seeded_entries_come_from_definitions accept_all
              (init any_store "memory://" None
                 (Examples.world_of
                    [Examples.every_five_minutes; Examples.noon_disabled])).2
              _ eq_refl)
    as (sched' & added & Hs & Hp & _).
  by exists sched', added.
Defined.

(** X12.  [seed_jobs] is not idempotent: when every definition is
    seedable, a second run returns normally as well and queues the jobs of
    the enabled definitions a second time, after those of the first run. *)
Theorem seed_jobs_twice_duplicates (check : CronTrigger.t → result unit)
  (st : State) (sched : BackgroundScheduler.t) :
  scheduler (self st) = Some sched →
  Forall (seedable check (BackgroundScheduler.timezone sched))
    (World.cronjobs (world st)) →
  let out1 := seed_jobs check st in
  let out2 := seed_jobs check out1.2 in
  out1.1 = Ok () ∧ out2.1 = Ok ()
  ∧ ∃ added,
      length added
      = length (List.filter CronJob.enabled (World.cronjobs (world st)))
      ∧ scheduled_jobs out1.2 = BackgroundScheduler.get_jobs sched ++ added
      ∧ scheduled_jobs out2.2
        = BackgroundScheduler.get_jobs sched ++ added ++ added.
Proof.
  intros Hs Hwf out1 out2.
  assert (H1 : out1 = for_each (World.cronjobs (world st)) (seed_job check) st)
    by done.
  destruct (for_each_seed check (World.cronjobs (world st)) st sched Hs)
    as (seeded & added & Hst & Hf & _ & Hok & Hall).
  rewrite <- H1 in Hst, Hok, Hall. specialize (Hall Hwf). specialize (Hok Hall).
  assert (H2 : out2 = for_each (World.cronjobs (world st)) (seed_job check) out1.2).
  { unfold out2, seed_jobs. unfold_M. by rewrite Hst. }
  destruct (for_each_seed check (World.cronjobs (world st)) out1.2 _
              (f_equal (λ s, scheduler (self s)) Hst))
    as (seeded2 & added2 & Hst2 & Hf2 & _ & Hok2 & Hall2).
  rewrite <- H2 in Hst2, Hok2, Hall2. simpl in Hf2, Hall2.
  specialize (Hall2 Hwf). specialize (Hok2 Hall2). subst seeded seeded2.
  assert (added2 = added) as -> by (by eapply seeds_functional).
  split; [done|]. split; [done|].
  exists ((λ p, p.1.1) <$> added). split_and!.
  - rewrite length_fmap. symmetry. by eapply Forall2_length.
  - unfold scheduled_jobs. rewrite Hst. simpl.
    unfold BackgroundScheduler.get_jobs. simpl. by rewrite fmap_app.
  - unfold scheduled_jobs. rewrite Hst2, Hst. simpl.
    unfold BackgroundScheduler.get_jobs. simpl.
    by rewrite !fmap_app, <- app_assoc.
Qed.

Lemma seed_jobs_twice_duplicates_witness :
  let w := Examples.world_of [Examples.every_five_minutes; Examples.noon_disabled] in
  let st := (init any_store "memory://" None w).2 in
  ∃ sched,
    scheduler (self st) = Some sched
    ∧ Forall (seedable accept_all (BackgroundScheduler.timezone sched))
        (World.cronjobs (world st))
    ∧ (seed_jobs accept_all (seed_jobs accept_all st).2).1 = Ok ()
    ∧ Job.id <$> scheduled_jobs (seed_jobs accept_all (seed_jobs accept_all st).2).2
      = ["1"; "1"].
Proof.
  eexists. split; [vm_compute; reflexivity|].
  assert (Hwf : Forall (seedable accept_all "Europe/Vienna")
                  [Examples.every_five_minutes; Examples.noon_disabled]).
  { repeat constructor; by apply seedable_accept_all. }
  split; [exact Hwf|]. split; [|vm_compute; reflexivity].
  apply (seed_jobs_twice_duplicates accept_all
           (init any_store "memory://" None
              (Examples.world_of
                 [Examples.every_five_minutes; Examples.noon_disabled])).2
           _ eq_refl Hwf).
Defined.

(** X13.  When the enabled definitions have pairwise distinct ids, the
    jobs construction and seeding leave in the scheduler have pairwise
    distinct ids: the id of a job is the decimal text of the definition's
    id, which determines it. *)
Theorem seeded_job_ids_distinct (store_init : JobStore.t → result unit)
  (check : CronTrigger.t → result unit)
  (addr : string) (flag : option bool) (w : World.t) :
  NoDup (CronJob.id <$> List.filter CronJob.enabled (World.cronjobs w)) →
  NoDup (Job.id <$> scheduled_jobs
           (construct_and_seed store_init check addr flag w).2).
Proof.
  intros Hnd. destruct (accepted_or_not store_init addr) as [Hk|Hk].
  - destruct (init_accepted store_init addr flag w Hk) as (store & w' & Hi & Hdb).
    rewrite construct_and_seed_eq, Hi.
    match goal with
    | |- context [seed_jobs check ?s] =>
        destruct (for_each_seed check (World.cronjobs w') s _ eq_refl)
          as (seeded & added & Hst & Hf & [rest Hpre] & _)
    end.
    change (seed_jobs check ?s)
      with (for_each (World.cronjobs (world s)) (seed_job check) s).
    simpl. unfold scheduled_jobs. rewrite Hst. simpl.
    unfold BackgroundScheduler.get_jobs. simpl.
    rewrite (seeds_ids _ _ _ _ Hf).
    rewrite <- Hdb, Hpre, fmap_app in Hnd. apply NoDup_app in Hnd as [Hnd _].
    replace ((λ c, pretty (CronJob.id c)) <$> seeded)
      with (pretty <$> (CronJob.id <$> seeded))
      by (by rewrite <- list_fmap_compose).
    by apply (NoDup_fmap_2 _).
  - destruct (construct_and_seed_rejected store_init check addr flag w Hk)
      as [-> Hnone].
    unfold scheduled_jobs. rewrite Hnone. constructor.
Qed.

Lemma seeded_job_ids_distinct_witness :
  let w := Examples.world_of [Examples.every_five_minutes; Examples.noon_disabled;
                              Examples.three_fields] in
  NoDup (CronJob.id <$> List.filter CronJob.enabled (World.cronjobs w))
  ∧ NoDup (Job.id <$> scheduled_jobs
             (construct_and_seed any_store accept_all "memory://" None w).2).
Proof.
  assert (H : NoDup (CronJob.id <$> List.filter CronJob.enabled
                       [Examples.every_five_minutes; Examples.noon_disabled;
                        Examples.three_fields])).
  { vm_compute. apply NoDup_cons. split; [by intros [=]%list_elem_of_singleton|].
    apply NoDup_singleton. }
  split; [exact H|].
  exact (seeded_job_ids_distinct any_store accept_all "memory://" None
           (Examples.world_of
              [Examples.every_five_minutes; Examples.noon_disabled;
               Examples.three_fields]) H).
Defined.

(** X14.  [run_supertask] gets to [st.start()] exactly when [configure]
    gets a job store for the address and every definition is disabled or
    has a crontab of five fields that the cron trigger accepts in the zone
    Europe/Vienna; its outcome is then that of [start] on the state
    reached by the seeding.  Otherwise it raises the error of the
    construction or of the seeding, and nothing is started. *)
Theorem run_supertask_starts_iff (store_init : JobStore.t → result unit)
  (check : CronTrigger.t → result unit)
  (scheduler_start observer_start http_service_start : M unit)
  (addr : string) (flag : option bool) (w : World.t) :
  let seeded := construct_and_seed store_init check addr flag w in
  let out := run_supertask store_init check scheduler_start observer_start
               http_service_start addr flag w in
  (seeded.1 = Ok ()
   ↔ accepted store_init addr
     ∧ Forall (seedable check "Europe/Vienna") (World.cronjobs w))
  ∧ (seeded.1 = Ok () →
     out = start scheduler_start observer_start http_service_start seeded.2)
  ∧ (seeded.1 ≠ Ok () → out = seeded).
Proof.
  intros seeded out. split.
  - unfold seeded. destruct (accepted_or_not store_init addr) as [Hk|Hk].
    + destruct (init_accepted store_init addr flag w Hk)
        as (store & w' & Hi & Hdb).
      rewrite construct_and_seed_eq, Hi, <- Hdb.
      match goal with
      | |- context [seed_jobs check ?s] =>
          change (seed_jobs check s)
            with (for_each (World.cronjobs w') (seed_job check) s);
          pose proof (for_each_seed_ok check (World.cronjobs w') s _ eq_refl)
            as Hto;
          destruct (for_each_seed check (World.cronjobs w') s _ eq_refl)
            as (sd & added & _ & _ & _ & _ & Hfrom)
      end.
      simpl in Hto, Hfrom. split; [intros H; split; auto|intros [_ H]; auto].
    + destruct (init_rejected store_init addr flag w Hk) as [e He].
      rewrite construct_and_seed_eq, He. simpl.
      split; [done|by intros [? _]].
  - unfold out, run_supertask. fold seeded.
    destruct seeded as [[[]|e] st]; simpl; split; done.
Qed.

Lemma run_supertask_starts_iff_witness :
  let w := Examples.world_of [Examples.every_five_minutes; Examples.three_fields] in
  (construct_and_seed any_store accept_all "memory://" None w).1 ≠ Ok ()
  ∧ run_supertask any_store accept_all quiet_start quiet_start quiet_start
      "memory://" None w
    = construct_and_seed any_store accept_all "memory://" None w.
Proof.
  assert (H : (construct_and_seed any_store accept_all "memory://" None
                 (Examples.world_of
                    [Examples.every_five_minutes; Examples.three_fields])).1
              ≠ Ok ()) by (by vm_compute).
  split; [exact H|].
  by apply (run_supertask_starts_iff any_store accept_all
              quiet_start quiet_start quiet_start "memory://" None
              (Examples.world_of
                 [Examples.every_five_minutes; Examples.three_fields])).
Defined.
